(** * Request states of signal-tools: a shallow embedding

    The development follows the TypeScript sources of the request-state
    package: the contract [IValueRequestState], its six variants, the
    constructor facade [requestState] and the trackers.  RxJS subjects and
    subscribers are modelled by the fields their implementation keeps
    ([isStopped], [hasError], [closed], the replay buffer); Angular signals
    are plain record fields, computed signals are functions of the record. *)

From Stdlib Require Import List String Bool Arith ZArith Lia DecimalString.
Import ListNotations.
Open Scope string_scope.

(** ** JavaScript values and errors *)

(** The class of an error object. *)
Inductive ErrorName := NError | NCancelledError | NEmptyError | NTypeError.

(** An [Error] object: [err_ref] is the identity of the object on the heap
    (two objects built by two [new] expressions have different references). *)
Record Error := mkError {
  err_ref : nat;
  err_name : ErrorName;
  err_message : string
}.

(** Values of type [T | undefined] and thrown values of type [unknown]. *)
Inductive JsValue :=
| VUndefined
| VBool (b : bool)
| VNum (z : Z)
| VStr (s : string)
| VErr (e : Error).

Definition ErrorName_eqb (a b : ErrorName) : bool :=
  match a, b with
  | NError, NError | NCancelledError, NCancelledError
  | NEmptyError, NEmptyError | NTypeError, NTypeError => true
  | _, _ => false
  end.

(** [instanceof CancelledError] *)
Definition isCancelled (e : Error) : bool := ErrorName_eqb (err_name e) NCancelledError.

(** [thrown instanceof CancelledError], for a value of type [unknown]. *)
Definition isCancelledValue (v : JsValue) : bool :=
  match v with
  | VErr e => isCancelled e
  | _ => false
  end.

(** A function [() => Error].  A call may allocate: it takes the next free
    reference of the heap and returns the error with the new next free one.
    The function is one that returns: it does not throw, and it does not
    call a method of the request state while it runs. *)
Definition ErrorThunk := nat -> Error * nat.

(** [() => new Error(msg)] *)
Definition newErrorThunk (msg : string) : ErrorThunk :=
  fun h => (mkError h NError msg, S h).

(** [() => error], a closure over an object that exists already. *)
Definition constThunk (error : Error) : ErrorThunk :=
  fun h => (error, h).

(** The optional argument of [cancel]: [string | Error | (() => Error)], or
    omitted. *)
Inductive Reason :=
| ROmitted
| RString (msg : string)
| RError (e : Error)
| RThunk (f : ErrorThunk).

(** [isString(error) ? new CancelledError(error) : isFunction(error) ? error() : error] *)
Definition fullError (error : Reason) (h : nat) : JsValue * nat :=
  match error with
  | RString msg => (VErr (mkError h NCancelledError msg), S h)
  | RThunk f => let (e, h') := f h in (VErr e, h')
  | RError e => (VErr e, h)
  | ROmitted => (VUndefined, h)
  end.

(** A stand-in for [parseError] of @juulsgaard/ts-tools, which is not part
    of this repository: an [Error] is returned as it is, any other value
    gives an error whose message is the value as a string.  The errors it
    makes all carry the reference 0, so it tells nothing about their
    identity.  It is used only to evaluate closed examples; the general
    statements take [parseError] as a parameter. *)
Definition parseErrorSample (v : JsValue) : Error :=
  match v with
  | VErr e => e
  | VStr s => mkError 0 NError s
  | VNum z => mkError 0 NError (NilZero.string_of_int (Z.to_int z))
  | VBool b => mkError 0 NError (if b then "true" else "false")
  | VUndefined => mkError 0 NError ""
  end.

(** ** RxJS: notifications, subjects, subscribers *)

Inductive Notification :=
| Next (v : JsValue)
| Err (e : JsValue)
| Complete.

(** [rxjs] raises [EmptyError] from [first()] when the source completes
    without a value. *)
Definition EmptyError : Error := mkError 0 NEmptyError "no elements in sequence".

Module Subject.
(** [Subject] and [ReplaySubject] (unbounded buffer).  [replay] tells the
    two apart: a plain subject keeps no buffer. *)
Record t := mk {
  replay : bool;
  buffer : list JsValue;
  isStopped : bool;
  hasError : bool;
  thrownError : JsValue;
  closed : bool
}.

Definition newReplaySubject : t := mk true [] false false VUndefined false.
Definition newSubject : t := mk false [] false false VUndefined false.

(** [next(value)]: buffered and delivered only while not stopped. *)
Definition next (value : JsValue) (s : t) : t :=
  if isStopped s then s
  else mk (replay s) (if replay s then buffer s ++ [value] else buffer s)
          false (hasError s) (thrownError s) (closed s).

(** [error(err)] *)
Definition error (err : JsValue) (s : t) : t :=
  if isStopped s then s
  else mk (replay s) (buffer s) true true err (closed s).

(** [complete()] *)
Definition complete (s : t) : t :=
  if isStopped s then s
  else mk (replay s) (buffer s) true (hasError s) (thrownError s) (closed s).

(** [_checkFinalizedStatuses] *)
Definition finalized (s : t) : list Notification :=
  if hasError s then [Err (thrownError s)]
  else if isStopped s then [Complete]
  else [].

(** What a new subscriber receives at once when it subscribes
    ([_subscribe]): the buffered values, then the terminal notification. *)
Definition subscribe (s : t) : list Notification :=
  map Next (buffer s) ++ finalized s.
End Subject.

Module Subscriber.
(** The [SafeSubscriber] that [Observable.subscribe] returns. *)
Record t := mk {
  isStopped : bool;
  closed : bool
}.

Definition open : t := mk false false.

(** [unsubscribe()] *)
Definition unsubscribe (s : t) : t := mk true true.

(** First half of [complete()] and [error(err)]: [this.isStopped = true]
    before the destination is notified; [unsubscribe()] follows in the
    [finally] block, after the destination and its observers have run. *)
Definition stop (s : t) : t := mk true (closed s).
End Subscriber.

(** ** The contract: [IValueRequestState] *)

(** What a [Subscriber] lets through: nothing after the first terminal
    notification. *)
Fixpoint observed (ns : list Notification) : list Notification :=
  match ns with
  | [] => []
  | Next v :: rest => Next v :: observed rest
  | Err e :: _ => [Err e]
  | Complete :: _ => [Complete]
  end.

(** The operator [first()] without a default value. *)
Definition first (ns : list Notification) : list Notification :=
  match ns with
  | [] => []
  | Next v :: _ => [Next v; Complete]
  | Err e :: _ => [Err e]
  | Complete :: _ => [Err (VErr EmptyError)]
  end.

(** A call of a handler that the user passed to [then], [catch] or
    [finally]. *)
Inductive Call :=
| OnValue (v : JsValue)
| OnError (e : Error)
| OnComplete (e : option Error).

(** [parseError] is called anew by each handler.  For a value that is not
    an [Error] two calls return two objects of the same class and message;
    a function of the value cannot tell them apart, so where a handler's
    error is compared with the one another call returned, it is compared
    without its reference ([eraseRef]). *)
Section Contract.
Variable parseError : JsValue -> Error.

(** [then(onValue, onError?)]: the handler calls made for a subscription
    that is sent [ns] by [request$]. *)
Definition thenCalls (hasOnError : bool) (ns : list Notification) : list Call :=
  flat_map (fun n =>
    match n with
    | Next v => [OnValue v]
    | Err e => if hasOnError then [OnError (parseError e)] else []
    | Complete => []
    end) (first ns).

(** [catch(onError)] *)
Definition catchCalls (ns : list Notification) : list Call :=
  flat_map (fun n =>
    match n with
    | Err e => [OnError (parseError e)]
    | _ => []
    end) (observed ns).

(** [finally(onComplete)] *)
Definition finallyCalls (ns : list Notification) : list Call :=
  flat_map (fun n =>
    match n with
    | Err e => [OnComplete (Some (parseError e))]
    | Complete => [OnComplete None]
    | Next _ => []
    end) (observed ns).
End Contract.

(** The four signals every variant exposes, read at one moment. *)
Record Signals := mkSignals {
  sig_result : JsValue;
  sig_loading : bool;
  sig_error : option Error;
  sig_failed : bool
}.

(** [computed(() => this._error() !== undefined)] *)
Definition isDefined (e : option Error) : bool :=
  match e with Some _ => true | None => false end.

(** ** The synchronous variants *)

Module StaticRequestState.
Record t := mk { value : JsValue }.

Definition request (s : t) : list Notification := [Next (value s); Complete].
Definition result_ (s : t) : list Notification := request s.
Definition signals (s : t) : Signals := mkSignals (value s) false None false.
Definition cancel (s : t) : bool * t := (false, s).
(** The override of [then]: [next(this.value)]. *)
Definition thenCalls (s : t) : list Call := [OnValue (value s)].
Definition catchCalls (s : t) : list Call := [].
Definition finallyCalls (s : t) : list Call := [OnComplete None].
End StaticRequestState.

Module EmptyRequestState.
Record t := mk { }.

(** [EMPTY] *)
Definition request (s : t) : list Notification := [Complete].
Definition result_ (s : t) : list Notification := request s.
Definition signals (s : t) : Signals := mkSignals VUndefined false None false.
Definition cancel (s : t) : bool * t := (false, s).
End EmptyRequestState.

Module ErrorRequestState.
(** [heap] is the next free object reference; [calls] counts the
    invocations of [getError] made so far. *)
Record t := mk {
  getError : ErrorThunk;
  error : Error;
  heap : nat;
  calls : nat
}.

(** [this.error = signal(getError()); this.request$ = throwError(getError)] *)
Definition new (getError : ErrorThunk) (h : nat) : t :=
  let (e, h') := getError h in
  mk getError e h' 1.

(** Subscribing to [request$ = throwError(getError)]: the factory is
    called for the subscriber, which is sent the error it returns. *)
Definition subscribe (s : t) : list Notification * t :=
  let (e, h') := getError s (heap s) in
  ([Err (VErr e)], mk (getError s) (error s) h' (S (calls s))).

(** [result$ = EMPTY] *)
Definition result_ (s : t) : list Notification := [Complete].
Definition signals (s : t) : Signals := mkSignals VUndefined false (Some (error s)) true.
Definition cancel (s : t) : bool * t := (false, s).

(** Any number of subscriptions, one after the other. *)
Fixpoint subscribeMany (n : nat) (s : t) : list (list Notification) * t :=
  match n with
  | O => ([], s)
  | S n' =>
      let (ns, s') := subscribe s in
      let (rest, s'') := subscribeMany n' s' in
      (ns :: rest, s'')
  end.
End ErrorRequestState.

Module LoadingRequestState.
Record t := mk {
  request_subj : Subject.t;
  loading : bool
}.

Definition new : t := mk Subject.newSubject true.

Definition request (s : t) : list Notification := Subject.subscribe (request_subj s).
Definition signals (s : t) : Signals := mkSignals VUndefined (loading s) None false.

Definition cancel (s : t) : bool * t :=
  if Subject.closed (request_subj s) then (false, s)
  else (false, mk (Subject.complete (request_subj s)) false).
End LoadingRequestState.

(** ** The asynchronous variants *)

(** What the wrapped source does, as seen behind [take(1)] or
    [from(promise)]: a value is passed on as [next] followed by [complete]. *)
Inductive SourceEvent :=
| SrcNext (v : JsValue)
| SrcError (e : JsValue)
| SrcComplete.

(** The variant of src/request-state/async-request-state.ts: the source is
    forwarded into [_request$] and the snapshots follow from a subscription
    to [request$] made in the constructor. *)
Module AsyncRequestState.
Record t := mk {
  request_subj : Subject.t;
  result_subj : Subject.t;
  result : JsValue;
  loading : bool;
  error : option Error;
  sub : Subscriber.t;
  heap : nat
}.

Definition new (h : nat) : t :=
  mk Subject.newReplaySubject Subject.newReplaySubject VUndefined true None
     Subscriber.open h.

Definition signals (s : t) : Signals :=
  mkSignals (result s) (loading s) (error s) (isDefined (error s)).
Definition request (s : t) : list Notification := Subject.subscribe (request_subj s).
Definition result_ (s : t) : list Notification := Subject.subscribe (result_subj s).

Definition set_request (r : Subject.t) (s : t) : t :=
  mk r (result_subj s) (result s) (loading s) (error s) (sub s) (heap s).
Definition set_sub (u : Subscriber.t) (s : t) : t :=
  mk (request_subj s) (result_subj s) (result s) (loading s) (error s) u (heap s).
Definition set_heap (h : nat) (s : t) : t :=
  mk (request_subj s) (result_subj s) (result s) (loading s) (error s) (sub s) h.

(** The callbacks of the user's observers of [request$].  They are
    subscribed after the constructor's own observer, so they run after
    it.  An observer that only records what it is sent leaves the state as
    it is. *)
Record Observers := mkObservers {
  onNext : t -> t;
  onError : t -> t;
  onComplete : t -> t
}.

Definition passive : Observers :=
  mkObservers (fun s => s) (fun s => s) (fun s => s).

Section WithParseError.
Variable parseError : JsValue -> Error.

(** The observer of the constructor, [next]:
    [this._result$.next(value); this._result.set(value)] *)
Definition handleNext (value : JsValue) (s : t) : t :=
  mk (request_subj s) (Subject.next value (result_subj s)) value
     (loading s) (error s) (sub s) (heap s).

(** [error]: [this._error.set(parseError(error)); this._result$.complete();
    this._loading.set(false)] *)
Definition handleError (err : JsValue) (s : t) : t :=
  mk (request_subj s) (Subject.complete (result_subj s)) (result s)
     false (Some (parseError err)) (sub s) (heap s).

(** [complete]: [this._result$.complete(); this._loading.set(false)] *)
Definition handleComplete (s : t) : t :=
  mk (request_subj s) (Subject.complete (result_subj s)) (result s)
     false (error s) (sub s) (heap s).

(** [this._request$.next(value)]: the subject, then its observers. *)
Definition request_next (obs : Observers) (value : JsValue) (s : t) : t :=
  if Subject.isStopped (request_subj s) then s
  else onNext obs (handleNext value
         (set_request (Subject.next value (request_subj s)) s)).

(** [this._request$.error(err)] *)
Definition request_error (obs : Observers) (err : JsValue) (s : t) : t :=
  if Subject.isStopped (request_subj s) then s
  else onError obs (handleError err
         (set_request (Subject.error err (request_subj s)) s)).

(** [this._request$.complete()] *)
Definition request_complete (obs : Observers) (s : t) : t :=
  if Subject.isStopped (request_subj s) then s
  else onComplete obs (handleComplete
         (set_request (Subject.complete (request_subj s)) s)).

(** [sub.next(value)], [sub] being the subscriber that wraps
    [_request$]. *)
Definition sub_next (obs : Observers) (value : JsValue) (s : t) : t :=
  if Subscriber.isStopped (sub s) then s
  else request_next obs value s.

(** [sub.error(err)]: stop, notify the destination, then unsubscribe. *)
Definition sub_error (obs : Observers) (err : JsValue) (s : t) : t :=
  if Subscriber.isStopped (sub s) then s
  else
    let s1 := request_error obs err (set_sub (Subscriber.stop (sub s)) s) in
    set_sub (Subscriber.unsubscribe (sub s1)) s1.

(** [sub.complete()] *)
Definition sub_complete (obs : Observers) (s : t) : t :=
  if Subscriber.isStopped (sub s) then s
  else
    let s1 := request_complete obs (set_sub (Subscriber.stop (sub s)) s) in
    set_sub (Subscriber.unsubscribe (sub s1)) s1.

(** One event of the source, through [take(1)] or [from]. *)
Definition deliver (obs : Observers) (ev : SourceEvent) (s : t) : t :=
  match ev with
  | SrcNext v => sub_complete obs (sub_next obs v s)
  | SrcError e => sub_error obs e s
  | SrcComplete => sub_complete obs s
  end.

Definition cancel (obs : Observers) (error : Reason) (s : t) : bool * t :=
  if Subscriber.closed (sub s) then (false, s)
  else
    let s1 := set_sub (Subscriber.unsubscribe (sub s)) s in
    let (fe, h') := fullError error (heap s1) in
    (true, request_error obs fe (set_heap h' s1)).

(** An observer whose [next] callback calls [cancel(error)]. *)
Definition cancelOnNext (error : Reason) : Observers :=
  mkObservers (fun s => snd (cancel passive error s)) (fun s => s) (fun s => s).

(** An observer whose [complete] callback calls [cancel(error)], as
    [finally(() => state.cancel(error))] subscribes. *)
Definition cancelOnComplete (error : Reason) : Observers :=
  mkObservers (fun s => s) (fun s => s) (fun s => snd (cancel passive error s)).
End WithParseError.
End AsyncRequestState.

(** The variant with the completion latch [_completed]: the subscriber's
    callbacks are [onValue], [onError] and [onCompleted]. *)
Module AsyncRequestStateLatched.
Record t := mk {
  completed : bool;
  request_subj : Subject.t;
  result_subj : Subject.t;
  result : JsValue;
  loading : bool;
  error : option Error;
  sub : Subscriber.t;
  heap : nat
}.

Definition new (h : nat) : t :=
  mk false Subject.newReplaySubject Subject.newReplaySubject VUndefined true None
     Subscriber.open h.

Definition signals (s : t) : Signals :=
  mkSignals (result s) (loading s) (error s) (isDefined (error s)).
Definition request (s : t) : list Notification := Subject.subscribe (request_subj s).
Definition result_ (s : t) : list Notification := Subject.subscribe (result_subj s).

Definition set_completed (s : t) : t :=
  mk true (request_subj s) (result_subj s) (result s) (loading s) (error s)
     (sub s) (heap s).
Definition set_request (r : Subject.t) (s : t) : t :=
  mk (completed s) r (result_subj s) (result s) (loading s) (error s) (sub s) (heap s).
Definition set_sub (u : Subscriber.t) (s : t) : t :=
  mk (completed s) (request_subj s) (result_subj s) (result s) (loading s) (error s)
     u (heap s).
Definition set_heap (h : nat) (s : t) : t :=
  mk (completed s) (request_subj s) (result_subj s) (result s) (loading s) (error s)
     (sub s) h.

(** The callbacks of the user's observers of [request$]. *)
Record Observers := mkObservers {
  onNext : t -> t;
  onError : t -> t;
  onComplete : t -> t
}.

Definition passive : Observers :=
  mkObservers (fun s => s) (fun s => s) (fun s => s).

(** [this._request$.next(v)] and the like: the subject, then the
    callbacks of its observers. *)
Definition emit_next (obs : Observers) (v : JsValue) (s : t) : t :=
  if Subject.isStopped (request_subj s) then s
  else onNext obs (set_request (Subject.next v (request_subj s)) s).
Definition emit_error (obs : Observers) (e : JsValue) (s : t) : t :=
  if Subject.isStopped (request_subj s) then s
  else onError obs (set_request (Subject.error e (request_subj s)) s).
Definition emit_complete (obs : Observers) (s : t) : t :=
  if Subject.isStopped (request_subj s) then s
  else onComplete obs (set_request (Subject.complete (request_subj s)) s).

Section WithParseError.
Variable parseError : JsValue -> Error.

Definition onError_ (obs : Observers) (err : JsValue) (s : t) : t :=
  if completed s then s
  else
    let s1 := emit_error obs err (set_completed s) in
    mk (completed s1) (request_subj s1) (Subject.complete (result_subj s1))
       (result s1) false (Some (parseError err)) (sub s1) (heap s1).

Definition onValue (obs : Observers) (value : JsValue) (s : t) : t :=
  if completed s then s
  else
    let s1 := emit_next obs value (set_completed s) in
    let s2 := emit_complete obs s1 in
    mk (completed s2) (request_subj s2)
       (Subject.complete (Subject.next value (result_subj s2)))
       value false (error s2) (sub s2) (heap s2).

Definition onCompleted (obs : Observers) (s : t) : t :=
  if completed s then s
  else
    let s1 := emit_complete obs (set_completed s) in
    mk (completed s1) (request_subj s1) (Subject.complete (result_subj s1))
       (result s1) false (error s1) (sub s1) (heap s1).

Definition sub_next (obs : Observers) (value : JsValue) (s : t) : t :=
  if Subscriber.isStopped (sub s) then s
  else onValue obs value s.

Definition sub_error (obs : Observers) (err : JsValue) (s : t) : t :=
  if Subscriber.isStopped (sub s) then s
  else
    let s1 := onError_ obs err (set_sub (Subscriber.stop (sub s)) s) in
    set_sub (Subscriber.unsubscribe (sub s1)) s1.

Definition sub_complete (obs : Observers) (s : t) : t :=
  if Subscriber.isStopped (sub s) then s
  else
    let s1 := onCompleted obs (set_sub (Subscriber.stop (sub s)) s) in
    set_sub (Subscriber.unsubscribe (sub s1)) s1.

Definition deliver (obs : Observers) (ev : SourceEvent) (s : t) : t :=
  match ev with
  | SrcNext v => sub_complete obs (sub_next obs v s)
  | SrcError e => sub_error obs e s
  | SrcComplete => sub_complete obs s
  end.

Definition cancel (obs : Observers) (error : Reason) (s : t) : bool * t :=
  if completed s then (false, s)
  else
    let s1 := set_sub (Subscriber.unsubscribe (sub s)) s in
    let (fe, h') := fullError error (heap s1) in
    (true, onError_ obs fe (set_heap h' s1)).

Definition cancelOnNext (error : Reason) : Observers :=
  mkObservers (fun s => snd (cancel passive error s)) (fun s => s) (fun s => s).

Definition cancelOnComplete (error : Reason) : Observers :=
  mkObservers (fun s => s) (fun s => s) (fun s => snd (cancel passive error s)).
End WithParseError.
End AsyncRequestStateLatched.

(** ** The externally driven variant *)

Module WritableRequestState.
(** [hasOnCancel] tells whether the owner passed [onCancel];
    [onCancelCalls] counts its invocations. *)
Record t := mk {
  completed : bool;
  request_subj : Subject.t;
  result_subj : Subject.t;
  result : JsValue;
  loading : bool;
  error : option Error;
  cancelled : bool;
  cancelled_subj : Subject.t;
  hasOnCancel : bool;
  onCancelCalls : nat;
  heap : nat
}.

Definition new (onCancel : bool) (h : nat) : t :=
  mk false Subject.newReplaySubject Subject.newReplaySubject VUndefined true None
     false Subject.newReplaySubject onCancel 0 h.

Definition signals (s : t) : Signals :=
  mkSignals (result s) (loading s) (error s) (isDefined (error s)).
Definition request (s : t) : list Notification := Subject.subscribe (request_subj s).
Definition result_ (s : t) : list Notification := Subject.subscribe (result_subj s).

(** [asReadonly() { return this; }] *)
Definition asReadonly (this : t) : t := this.

Section WithParseError.
Variable parseError : JsValue -> Error.

Definition setError (err : JsValue) (s : t) : t :=
  if completed s then s
  else
    mk true (Subject.error err (request_subj s)) (Subject.complete (result_subj s))
       (result s) false (Some (parseError err))
       (cancelled s) (cancelled_subj s) (hasOnCancel s) (onCancelCalls s) (heap s).

Definition setValue (value : JsValue) (s : t) : t :=
  if completed s then s
  else
    mk true (Subject.complete (Subject.next value (request_subj s))) (result_subj s)
       value false (error s)
       (cancelled s) (cancelled_subj s) (hasOnCancel s) (onCancelCalls s) (heap s).

Definition cancel (reason : Reason) (s : t) : bool * t :=
  if completed s then (false, s)
  else
    let (fe, h') := fullError reason (heap s) in
    let s1 := setError fe s in
    (true,
     mk (completed s1) (request_subj s1) (result_subj s1) (result s1) (loading s1)
        (error s1) true
        (Subject.complete (Subject.next (VBool true) (cancelled_subj s1)))
        (hasOnCancel s1)
        (if hasOnCancel s1 then S (onCancelCalls s1) else onCancelCalls s1)
        h').
End WithParseError.
End WritableRequestState.

(** ** Request states as objects, the facade and the trackers *)

(** A request state of any variant. *)
Inductive RequestStateObj :=
| OStatic (s : StaticRequestState.t)
| OError (s : ErrorRequestState.t)
| OEmpty (s : EmptyRequestState.t)
| OLoading (s : LoadingRequestState.t)
| OWritable (s : WritableRequestState.t)
| OAsync (s : AsyncRequestState.t)
| OAsyncLatched (s : AsyncRequestStateLatched.t).

Definition signalsOf (o : RequestStateObj) : Signals :=
  match o with
  | OStatic s => StaticRequestState.signals s
  | OError s => ErrorRequestState.signals s
  | OEmpty s => EmptyRequestState.signals s
  | OLoading s => LoadingRequestState.signals s
  | OWritable s => WritableRequestState.signals s
  | OAsync s => AsyncRequestState.signals s
  | OAsyncLatched s => AsyncRequestStateLatched.signals s
  end.

Definition isEmptyState (o : RequestStateObj) : bool :=
  match o with OEmpty _ => true | _ => false end.

(** The objects that exist, by reference: a tracker holds a reference, and
    the state it refers to may be held and driven elsewhere. *)
Definition Store := list RequestStateObj.

Definition deref (st : Store) (r : nat) : option RequestStateObj := nth_error st r.

(** [new ...]: the object is added to the store, its reference returned. *)
Definition alloc (o : RequestStateObj) (st : Store) : nat * Store :=
  (List.length st, (st ++ [o])%list).

(** The outcome of a call that may throw. *)
Inductive Outcome (A : Type) :=
| Ok (a : A)
| Throw (name : ErrorName) (msg : string).
Arguments Ok {A} a.
Arguments Throw {A} name msg.

Module requestState.
(** The members that [AltConstructors] declares. *)
Inductive member := writable | error | loading | empty.

(** A facade object: the members that have been assigned a function. *)
Definition Facade := member -> bool.

(** [const compiled = valueRequestState as ...;
     compiled.writable = writableRequestState;
     compiled.error = errorRequestState;
     export const requestState = compiled;] *)
Definition compiled : Facade :=
  fun m =>
    match m with
    | writable => true
    | error => true
    | loading => false
    | empty => false
    end.

(** [function emptyRequestState() { return new EmptyRequestState(); }] *)
Definition emptyRequestState (st : Store) : nat * Store :=
  alloc (OEmpty EmptyRequestState.mk) st.

(** The call [requestState.empty()] on a facade: calling a member that
    was never assigned throws a [TypeError]. *)
Definition call_empty (f : Facade) (st : Store) : Outcome (nat * Store) :=
  if f empty then Ok (emptyRequestState st)
  else Throw NTypeError "requestState.empty is not a function".
End requestState.

(** [errorRequestState(error)]:
    [new ErrorRequestState(error instanceof Error ? () => error : error)] *)
Inductive ErrorArg :=
| ArgError (e : Error)
| ArgThunk (f : ErrorThunk).

Definition errorRequestState (error : ErrorArg) (h : nat) : ErrorRequestState.t :=
  ErrorRequestState.new
    (match error with
     | ArgError e => constThunk e
     | ArgThunk f => f
     end) h.

(** [asReadonly()] on a reference to a writable state: [return this]. *)
Definition asReadonlyRef (this : nat) : nat := this.

Module RequestTracker.
(** [_request] holds the reference of the current request state. *)
Record t := mk { _request : nat }.

Section WithFacade.
Variable facade : requestState.Facade.

(** [this._request = signal(request ?? requestState.empty())] *)
Definition new (request : option nat) (st : Store) : Outcome (t * Store) :=
  match request with
  | Some r => Ok (mk r, st)
  | None =>
      match requestState.call_empty facade st with
      | Ok (r, st') => Ok (mk r, st')
      | Throw n m => Throw n m
      end
  end.

(** [this._request.set(requestState.empty())] *)
Definition reset (tr : t) (st : Store) : Outcome (t * Store) :=
  match requestState.call_empty facade st with
  | Ok (r, st') => Ok (mk r, st')
  | Throw n m => Throw n m
  end.
End WithFacade.

Definition set (state : nat) (tr : t) : t := mk state.

(** [get current() { return untracked(this.request) }] *)
Definition current (tr : t) : nat := _request tr.

(** [computed(() => this._request().loading())] and the like, read with
    the store as it is at the time of the read. *)
Definition loading (st : Store) (tr : t) : option bool :=
  option_map sig_loading (option_map signalsOf (deref st (_request tr))).
Definition error (st : Store) (tr : t) : option (option Error) :=
  option_map sig_error (option_map signalsOf (deref st (_request tr))).
Definition failed (st : Store) (tr : t) : option bool :=
  option_map sig_failed (option_map signalsOf (deref st (_request tr))).
End RequestTracker.

Module ValueRequestTracker.
(** [base] is the inherited part; [_valueRequest] is the signal of the
    subclass, behind the overridden [request] and [current]. *)
Record t := mk {
  base : RequestTracker.t;
  _valueRequest : nat
}.

Section WithFacade.
Variable facade : requestState.Facade.

(** [super(); this._valueRequest = signal(request ?? requestState.empty())] *)
Definition new (request : option nat) (st : Store) : Outcome (t * Store) :=
  match RequestTracker.new facade None st with
  | Throw n m => Throw n m
  | Ok (b, st1) =>
      match request with
      | Some r => Ok (mk b r, st1)
      | None =>
          match requestState.call_empty facade st1 with
          | Ok (r, st2) => Ok (mk b r, st2)
          | Throw n m => Throw n m
          end
      end
  end.

(** [super.set(req); this._valueRequest.set(req)] *)
Definition set (req : nat) (tr : t) : t :=
  mk (RequestTracker.set req (base tr)) req.

(** [super.reset(); this.set(requestState.empty())] *)
Definition reset (tr : t) (st : Store) : Outcome (t * Store) :=
  match RequestTracker.reset facade (base tr) st with
  | Throw n m => Throw n m
  | Ok (b, st1) =>
      match requestState.call_empty facade st1 with
      | Ok (r, st2) => Ok (set r (mk b (_valueRequest tr)), st2)
      | Throw n m => Throw n m
      end
  end.
End WithFacade.

(** [get current() { return untracked(this.request) }], with
    [this.request = this._valueRequest.asReadonly()]. *)
Definition current (tr : t) : nat := _valueRequest tr.

(** The derived signals are the inherited ones. *)
Definition loading (st : Store) (tr : t) : option bool := RequestTracker.loading st (base tr).
Definition error (st : Store) (tr : t) : option (option Error) := RequestTracker.error st (base tr).
Definition failed (st : Store) (tr : t) : option bool := RequestTracker.failed st (base tr).
End ValueRequestTracker.

(** ** Auxiliary definitions for the statements *)

(** The facade as [AltConstructors] declares it, every member assigned. *)
Definition declaredFacade : requestState.Facade := fun _ => true.

(** The signals of the state a reference points to. *)
Definition signalsAt (st : Store) (r : nat) : option Signals :=
  option_map signalsOf (deref st r).

(** A [ValueRequestTracker] is coherent when both of its signals hold the
    same reference. *)
Definition coherent (tr : ValueRequestTracker.t) : Prop :=
  RequestTracker._request (ValueRequestTracker.base tr) = ValueRequestTracker._valueRequest tr.

(** The store with one Perpetual-Pending state, at reference 0. *)
Definition pendingStore : Store := [OLoading LoadingRequestState.new].

(** What is done to an Async-Source state from outside, one call at a
    time: the source delivers, or the user calls [cancel]. *)
Inductive Op :=
| OpDeliver (ev : SourceEvent)
| OpCancel (error : Reason).

(** What can be observed after a call: the value [cancel] returned, the
    four signals, and what [request$] and [result$] send a subscriber. *)
Record Observation := mkObservation {
  obs_returned : option bool;
  obs_signals : Signals;
  obs_request : list Notification;
  obs_result : list Notification
}.

(** The number of signals the source delivers in a run. *)
Fixpoint deliveries (ops : list Op) : nat :=
  match ops with
  | [] => 0
  | OpDeliver _ :: rest => S (deliveries rest)
  | OpCancel _ :: rest => deliveries rest
  end.

Section Runs.
Variable parseError : JsValue -> Error.

Definition stepAsync (op : Op) (s : AsyncRequestState.t)
  : option bool * AsyncRequestState.t :=
  match op with
  | OpDeliver ev =>
      (None, AsyncRequestState.deliver parseError AsyncRequestState.passive ev s)
  | OpCancel r =>
      let (b, s') := AsyncRequestState.cancel parseError AsyncRequestState.passive r s in
      (Some b, s')
  end.

Definition observeAsync (ret : option bool) (s : AsyncRequestState.t) : Observation :=
  mkObservation ret (AsyncRequestState.signals s) (AsyncRequestState.request s)
    (AsyncRequestState.result_ s).

Fixpoint runAsync (ops : list Op) (s : AsyncRequestState.t) : list Observation :=
  match ops with
  | [] => []
  | op :: rest =>
      let (ret, s') := stepAsync op s in
      observeAsync ret s' :: runAsync rest s'
  end.

Definition stepLatched (op : Op) (s : AsyncRequestStateLatched.t)
  : option bool * AsyncRequestStateLatched.t :=
  match op with
  | OpDeliver ev =>
      (None, AsyncRequestStateLatched.deliver parseError
               AsyncRequestStateLatched.passive ev s)
  | OpCancel r =>
      let (b, s') := AsyncRequestStateLatched.cancel parseError
                       AsyncRequestStateLatched.passive r s in
      (Some b, s')
  end.

Definition observeLatched (ret : option bool) (s : AsyncRequestStateLatched.t)
  : Observation :=
  mkObservation ret (AsyncRequestStateLatched.signals s)
    (AsyncRequestStateLatched.request s) (AsyncRequestStateLatched.result_ s).

Fixpoint runLatched (ops : list Op) (s : AsyncRequestStateLatched.t)
  : list Observation :=
  match ops with
  | [] => []
  | op :: rest =>
      let (ret, s') := stepLatched op s in
      observeLatched ret s' :: runLatched rest s'
  end.

(** The two implementations side by side: the same channels, snapshots,
    subscriber and heap, and either both are pending or both are done. *)
Definition sameState (a : AsyncRequestState.t) (l : AsyncRequestStateLatched.t) : Prop :=
  AsyncRequestState.request_subj a = AsyncRequestStateLatched.request_subj l /\
  AsyncRequestState.result_subj a = AsyncRequestStateLatched.result_subj l /\
  AsyncRequestState.result a = AsyncRequestStateLatched.result l /\
  AsyncRequestState.loading a = AsyncRequestStateLatched.loading l /\
  AsyncRequestState.error a = AsyncRequestStateLatched.error l /\
  AsyncRequestState.sub a = AsyncRequestStateLatched.sub l /\
  AsyncRequestState.heap a = AsyncRequestStateLatched.heap l /\
  ((AsyncRequestStateLatched.completed l = false /\
    AsyncRequestState.sub a = Subscriber.open /\
    Subject.isStopped (AsyncRequestState.request_subj a) = false)
   \/
   (AsyncRequestStateLatched.completed l = true /\
    AsyncRequestState.sub a = Subscriber.mk true true /\
    Subject.isStopped (AsyncRequestState.request_subj a) = true)).
End Runs.

(** The state that the [complete] callbacks of the observers of
    [request$] find while the source of a new state delivers [v]:
    [sub.next(v)] is over, [sub.complete()] has stopped [sub], completed
    [_request$] and run the constructor's observer, and has not yet
    reached its [unsubscribe()]. *)
Definition atCompleteCallback (v : JsValue) (h : nat) : AsyncRequestState.t :=
  let s1 := AsyncRequestState.sub_next AsyncRequestState.passive v
              (AsyncRequestState.new h) in
  let s2 := AsyncRequestState.set_sub (Subscriber.stop (AsyncRequestState.sub s1)) s1 in
  AsyncRequestState.handleComplete
    (AsyncRequestState.set_request
       (Subject.complete (AsyncRequestState.request_subj s2)) s2).

(** ** Runs of the externally driven variant *)

(** The calls of the controller and of the consumer that change a
    writable state. *)
Inductive WritableCall :=
| WSetValue (value : JsValue)
| WSetError (err : JsValue)
| WCancel (reason : Reason).

(** What a call returns when it is made on a completed state: [cancel]
    returns [false], the setters return nothing. *)
Definition lateReturn (c : WritableCall) : option bool :=
  match c with
  | WCancel _ => Some false
  | _ => None
  end.

Section WritableRuns.
Variable parseError : JsValue -> Error.

Definition stepWritable (c : WritableCall) (s : WritableRequestState.t)
  : option bool * WritableRequestState.t :=
  match c with
  | WSetValue v => (None, WritableRequestState.setValue v s)
  | WSetError e => (None, WritableRequestState.setError parseError e s)
  | WCancel r =>
      let (b, s') := WritableRequestState.cancel parseError r s in (Some b, s')
  end.

(** The values returned by the calls, and the state they leave. *)
Fixpoint runWritable (cs : list WritableCall) (s : WritableRequestState.t)
  : list (option bool) * WritableRequestState.t :=
  match cs with
  | [] => ([], s)
  | c :: rest =>
      let (ret, s1) := stepWritable c s in
      let (rets, s2) := runWritable rest s1 in
      (ret :: rets, s2)
  end.
End WritableRuns.

(** The calls a handler attached with [then(onValue, onError)], with
    [catch] or with [finally] is expected to get from a state with the
    given signals that has resolved or failed. *)
Definition settledThen (g : Signals) : list Call :=
  if sig_loading g then []
  else match sig_error g with
       | Some e => [OnError e]
       | None => [OnValue (sig_result g)]
       end.

Definition settledCatch (g : Signals) : list Call :=
  match sig_error g with
  | Some e => [OnError e]
  | None => []
  end.

Definition settledFinally (g : Signals) : list Call :=
  if sig_loading g then [] else [OnComplete (sig_error g)].

(** ** The outcome of an Async-Source state *)

Section Outcomes.
Variable parseError : JsValue -> Error.

(** What is observed after the first call made on a new Async-Source state
    whose heap is at [h]: the state resolves, fails or completes without a
    value. *)
Definition firstOutcome (h : nat) (op : Op) : Observation :=
  match op with
  | OpDeliver (SrcNext v) =>
      mkObservation None (mkSignals v false None false)
        [Next v; Complete] [Next v; Complete]
  | OpDeliver (SrcError e) =>
      mkObservation None (mkSignals VUndefined false (Some (parseError e)) true)
        [Err e] [Complete]
  | OpDeliver SrcComplete =>
      mkObservation None (mkSignals VUndefined false None false)
        [Complete] [Complete]
  | OpCancel r =>
      let e := fst (fullError r h) in
      mkObservation (Some true) (mkSignals VUndefined false (Some (parseError e)) true)
        [Err e] [Complete]
  end.
End Outcomes.

(** What is observed after a call that changes nothing: [cancel] returns
    [false], a delivery returns nothing, the rest is as before. *)
Definition lateOutcome (o : Observation) (op : Op) : Observation :=
  mkObservation
    (match op with OpCancel _ => Some false | OpDeliver _ => None end)
    (obs_signals o) (obs_request o) (obs_result o).

(** Whether [request$] has completed without a value. *)
Definition completedWithoutValue (ns : list Notification) : bool :=
  match ns with
  | [Complete] => true
  | _ => false
  end.

(** ** Promises and the tracker factory *)

(** The state of the promise that [asPromise()] returns. *)
Inductive PromiseState :=
| Pending
| Fulfilled (v : JsValue)
| Rejected (e : Error).

(** [new Promise((resolve, reject) => this.then(resolve, reject))]: the
    promise is settled by the first handler call. *)
Definition asPromise (calls : list Call) : PromiseState :=
  match calls with
  | OnValue v :: _ => Fulfilled v
  | OnError e :: _ => Rejected e
  | _ => Pending
  end.

(** A tracker of either class. *)
Inductive Tracker :=
| TValue (tr : ValueRequestTracker.t)
| TPlain (tr : RequestTracker.t).

(** [request instanceof IValueRequestState]: every variant extends
    [IValueRequestState]; a reference to no object of the store stands for
    an [IRequestState] of another class. *)
Definition isValueRequestState (st : Store) (r : nat) : bool :=
  match deref st r with
  | Some _ => true
  | None => false
  end.

(** [requestTracker(request?)] *)
Definition requestTracker (facade : requestState.Facade) (request : option nat)
    (st : Store) : Outcome (Tracker * Store) :=
  match request with
  | None =>
      match ValueRequestTracker.new facade None st with
      | Ok (tr, st') => Ok (TValue tr, st')
      | Throw n m => Throw n m
      end
  | Some r =>
      if isValueRequestState st r then
        match ValueRequestTracker.new facade (Some r) st with
        | Ok (tr, st') => Ok (TValue tr, st')
        | Throw n m => Throw n m
        end
      else
        match RequestTracker.new facade (Some r) st with
        | Ok (tr, st') => Ok (TPlain tr, st')
        | Throw n m => Throw n m
        end
  end.

(** ** Signal collections: arrays *)

(** JavaScript arrays as lists.  Indices and counts are integers, which may
    be negative; fractional numbers and [NaN] are not modelled.  Elements
    are compared by [eq_dec], which stands for [===] and for the
    SameValueZero comparison of [includes]: the two differ on [NaN] only. *)
Module JsArray.
Section Ops.
Variable A : Type.
Variable eq_dec : forall x y : A, {x = y} + {x <> y}.

(** A relative index, as [slice] resolves it: counted from the end when
    negative, and clamped to the array. *)
Definition clamp (len i : Z) : Z :=
  if (i <? 0)%Z then Z.max (len + i) 0 else Z.min i len.

(** [l.slice(start, end)], [end] being optional. *)
Definition slice (start : Z) (end_ : option Z) (l : list A) : list A :=
  let len := Z.of_nat (List.length l) in
  let k := clamp len start in
  let final := match end_ with
               | None => len
               | Some e => clamp len e
               end in
  firstn (Z.to_nat (final - k)) (skipn (Z.to_nat k) l).

(** [l.at(i)] *)
Definition at_ (i : Z) (l : list A) : option A :=
  let len := Z.of_nat (List.length l) in
  let k := if (0 <=? i)%Z then i else (len + i)%Z in
  if ((k <? 0) || (len <=? k))%Z then None else nth_error l (Z.to_nat k).

(** [l.indexOf(item)]: the first index, or -1. *)
Fixpoint indexOf (item : A) (l : list A) : Z :=
  match l with
  | [] => (-1)%Z
  | x :: rest =>
      if eq_dec x item then 0%Z
      else let i := indexOf item rest in
           if (i <? 0)%Z then (-1)%Z else (i + 1)%Z
  end.

(** [l.includes(item)] *)
Definition includes (item : A) (l : list A) : bool :=
  if in_dec eq_dec item l then true else false.

(** [const arr = [...l]; arr.splice(index, 1)] for an index of the array. *)
Definition splice1 (index : Z) (l : list A) : list A :=
  (firstn (Z.to_nat index) l ++ skipn (S (Z.to_nat index)) l)%list.
End Ops.
End JsArray.

Arguments JsArray.slice {A} start end_ l.
Arguments JsArray.at_ {A} i l.
Arguments JsArray.indexOf {A} eq_dec item l.
Arguments JsArray.includes {A} eq_dec item l.
Arguments JsArray.splice1 {A} index l.

(** ** Signal collections: the queue *)

Module SignalQueue.
Section Queue.
Variable A : Type.
Variable eq_dec : forall x y : A, {x = y} + {x <> y}.

Record t := mk {
  items : list A;
  maxSize : option Z
}.

(** [new SignalQueue(options)], with [options?.size]. *)
Definition new (size : option Z) : t := mk [] size.

Definition length (s : t) : Z := Z.of_nat (List.length (items s)).
Definition empty (s : t) : bool := (length s <=? 0)%Z.
Definition front (s : t) : option A := JsArray.at_ 0 (items s).
Definition back (s : t) : option A := JsArray.at_ (-1) (items s).

Definition removeItem (item : A) (s : t) : bool * t :=
  let index := JsArray.indexOf eq_dec item (items s) in
  if (index <? 0)%Z then (false, s)
  else (true, mk (JsArray.splice1 index (items s)) (maxSize s)).

(** [dequeue()] *)
Definition dequeue (s : t) : option A * t :=
  if (length s =? 0)%Z then (None, s)
  else (JsArray.at_ 0 (items s), mk (JsArray.slice 1 None (items s)) (maxSize s)).

(** [dequeue(count)] *)
Definition dequeueCount (count : Z) (s : t) : list A * t :=
  if (count <? 1)%Z then ([], s)
  else if (length s =? 0)%Z then ([], s)
  else (JsArray.slice 0 (Some count) (items s),
        mk (JsArray.slice count None (items s)) (maxSize s)).

(** [removeFromBack()] *)
Definition removeFromBack (s : t) : option A * t :=
  if (length s =? 0)%Z then (None, s)
  else (JsArray.at_ (-1) (items s),
        mk (JsArray.slice 0 (Some (-1)%Z) (items s)) (maxSize s)).

(** [removeFromBack(count)] *)
Definition removeFromBackCount (count : Z) (s : t) : list A * t :=
  if (count <? 1)%Z then ([], s)
  else if (length s =? 0)%Z then ([], s)
  else
    let start := (count * -1)%Z in
    (JsArray.slice start None (items s),
     mk (JsArray.slice 0 (Some start) (items s)) (maxSize s)).

(** [enqueue(...items)] *)
Definition enqueue (its : list A) (s : t) : t :=
  let list := (items s ++ its)%list in
  let len := Z.of_nat (List.length list) in
  match maxSize s with
  | Some m =>
      if (m <? len)%Z then mk (JsArray.slice (len - m) None list) (maxSize s)
      else mk list (maxSize s)
  | None => mk list (maxSize s)
  end.

(** [addToFront(...items)] *)
Definition addToFront (its : list A) (s : t) : t :=
  let list := (its ++ items s)%list in
  let len := Z.of_nat (List.length list) in
  match maxSize s with
  | Some m =>
      if (m <? len)%Z then mk (JsArray.slice 0 (Some (- (len - m))%Z) list) (maxSize s)
      else mk list (maxSize s)
  | None => mk list (maxSize s)
  end.

Definition contains (item : A) (s : t) : bool := JsArray.includes eq_dec item (items s).

Definition clear (s : t) : t := mk [] (maxSize s).

(** [setMaxSize(size)] *)
Definition setMaxSize (size : option Z) (s : t) : t :=
  match size with
  | None => mk (items s) None
  | Some m =>
      if (length s <=? m)%Z then mk (items s) size
      else mk (JsArray.slice (length s - m) None (items s)) size
  end.
End Queue.
End SignalQueue.

(** ** Signal collections: the stack *)

Module SignalStack.
Section Stack.
Variable A : Type.
Variable eq_dec : forall x y : A, {x = y} + {x <> y}.

(** The items, from bottom to top. *)
Record t := mk { items : list A }.

Definition new : t := mk [].

Definition length (s : t) : Z := Z.of_nat (List.length (items s)).
Definition empty (s : t) : bool := (length s <=? 0)%Z.
Definition top (s : t) : option A := JsArray.at_ (-1) (items s).
Definition bottom (s : t) : option A := JsArray.at_ 0 (items s).

Definition removeItem (item : A) (s : t) : bool * t :=
  let index := JsArray.indexOf eq_dec item (items s) in
  if (index <? 0)%Z then (false, s)
  else (true, mk (JsArray.splice1 index (items s))).

(** [removeFromBottom()] *)
Definition removeFromBottom (s : t) : option A * t :=
  if (length s =? 0)%Z then (None, s)
  else (JsArray.at_ 0 (items s), mk (JsArray.slice 1 None (items s))).

(** [removeFromBottom(count)] *)
Definition removeFromBottomCount (count : Z) (s : t) : list A * t :=
  if (count <? 1)%Z then ([], s)
  else if (length s =? 0)%Z then ([], s)
  else (JsArray.slice 0 (Some count) (items s),
        mk (JsArray.slice count None (items s))).

(** [pop()] *)
Definition pop (s : t) : option A * t :=
  if (length s =? 0)%Z then (None, s)
  else (JsArray.at_ (-1) (items s), mk (JsArray.slice 0 (Some (-1)%Z) (items s))).

(** [pop(count)] *)
Definition popCount (count : Z) (s : t) : list A * t :=
  if (count <? 1)%Z then ([], s)
  else if (length s =? 0)%Z then ([], s)
  else
    let start := (count * -1)%Z in
    (JsArray.slice start None (items s), mk (JsArray.slice 0 (Some start) (items s))).

(** [push(...items)] *)
Definition push (its : list A) (s : t) : t := mk (items s ++ its)%list.

(** [addToBottom(...items)] *)
Definition addToBottom (its : list A) (s : t) : t := mk (its ++ items s)%list.

Definition contains (item : A) (s : t) : bool := JsArray.includes eq_dec item (items s).

Definition clear (s : t) : t := mk [].
End Stack.
End SignalStack.

(** ** Auxiliary definitions for the collections *)

Section CollectionSpecs.
Variable A : Type.
Variable eq_dec : forall x y : A, {x = y} + {x <> y}.

(** The list without the first occurrence of [x]. *)
Fixpoint removeFirst (x : A) (l : list A) : list A :=
  match l with
  | [] => []
  | y :: rest => if eq_dec y x then rest else y :: removeFirst x rest
  end.

(** The calls that change a queue. *)
Inductive QueueCall :=
| QRemoveItem (item : A)
| QDequeue
| QDequeueCount (count : Z)
| QRemoveFromBack
| QRemoveFromBackCount (count : Z)
| QEnqueue (its : list A)
| QAddToFront (its : list A)
| QClear
| QSetMaxSize (size : option Z).

Definition stepQueue (c : QueueCall) (s : SignalQueue.t A) : SignalQueue.t A :=
  match c with
  | QRemoveItem x => snd (SignalQueue.removeItem A eq_dec x s)
  | QDequeue => snd (SignalQueue.dequeue A s)
  | QDequeueCount n => snd (SignalQueue.dequeueCount A n s)
  | QRemoveFromBack => snd (SignalQueue.removeFromBack A s)
  | QRemoveFromBackCount n => snd (SignalQueue.removeFromBackCount A n s)
  | QEnqueue its => SignalQueue.enqueue A its s
  | QAddToFront its => SignalQueue.addToFront A its s
  | QClear => SignalQueue.clear A s
  | QSetMaxSize size => SignalQueue.setMaxSize A size s
  end.

Definition runQueue (cs : list QueueCall) (s : SignalQueue.t A) : SignalQueue.t A :=
  fold_left (fun s c => stepQueue c s) cs s.

(** A queue is within its bound when it has no [maxSize] or holds at most
    [max(0, maxSize)] items. *)
Definition withinBound (s : SignalQueue.t A) : Prop :=
  match SignalQueue.maxSize A s with
  | None => True
  | Some m => (SignalQueue.length A s <= Z.max 0 m)%Z
  end.
End CollectionSpecs.

(** ** Signal collections: the set *)

(** A [Signal] is a function object, so it is truthy wherever the code
    uses one as a condition. *)
Definition signalTruthy : bool := true.

(** The JavaScript [Set]: its elements in insertion order, each once. *)
Module JsSet.
Section Ops.
Variable A : Type.
Variable eq_dec : forall x y : A, {x = y} + {x <> y}.

Definition has (x : A) (l : list A) : bool :=
  if in_dec eq_dec x l then true else false.

Definition add (x : A) (l : list A) : list A :=
  if in_dec eq_dec x l then l else (l ++ [x])%list.

Definition delete (x : A) (l : list A) : list A := remove eq_dec x l.

(** [new Set(values)] *)
Definition ofList (values : list A) : list A :=
  fold_left (fun set v => add v set) values [].
End Ops.
End JsSet.

Module SignalSet.
Section Set_.
Variable A : Type.
Variable eq_dec : forall x y : A, {x = y} + {x <> y}.

(** [value] is the set that the signal [_set] holds. *)
Record t := mk { value : list A }.

(** [new SignalSet(values)] *)
Definition new (values : list A) : t := mk (JsSet.ofList A eq_dec values).

Definition size (s : t) : nat := List.length (value s).
Definition empty (s : t) : bool := (size s <=? 0)%nat.
Definition array (s : t) : list A := value s.

(** [has(value)] makes a signal; [hasNow] is what that signal reads. *)
Definition hasNow (x : A) (s : t) : bool := JsSet.has A eq_dec x (value s).

Definition clear (s : t) : bool * t :=
  if (size s =? 0)%nat then (false, s) else (true, mk []).

(** [filter(whitelist)]: [whitelist] is an array, the elements of a set,
    or omitted. *)
Definition filter (whitelist : option (list A)) (s : t) : bool * t :=
  match whitelist with
  | None => clear s
  | Some w =>
      if (List.length w =? 0)%nat then clear s
      else
        let whitelistSet := JsSet.ofList A eq_dec w in
        let set :=
          fold_left (fun set v =>
                       if JsSet.has A eq_dec v whitelistSet then set
                       else JsSet.delete A eq_dec v set)
            (value s) (value s) in
        if negb (size s =? List.length set)%nat then (true, mk set) else (false, s)
  end.

Definition add (x : A) (s : t) : bool * t :=
  if JsSet.has A eq_dec x (value s) then (false, s)
  else (true, mk (JsSet.add A eq_dec x (value s))).

Definition addRange (values : list A) (s : t) : bool * t :=
  let set := fold_left (fun set v => JsSet.add A eq_dec v set) values (value s) in
  if (List.length set =? size s)%nat then (false, s) else (true, mk set).

(** [set(values = [])].  In [!values.length && !this.size] and in
    [values.every(x => this.has(x))] the code uses the signals [this.size]
    and [this.has(x)] themselves as conditions. *)
Definition set (values : list A) (s : t) : bool * t :=
  if (List.length values =? 0)%nat && negb signalTruthy then (false, s)
  else if (List.length values =? size s)%nat && forallb (fun _ => signalTruthy) values
       then (false, s)
       else (true, mk (JsSet.ofList A eq_dec values)).

Definition delete (x : A) (s : t) : bool * t :=
  if negb (JsSet.has A eq_dec x (value s)) then (false, s)
  else (true, mk (JsSet.delete A eq_dec x (value s))).

Definition deleteRange (values : list A) (s : t) : bool * t :=
  let set := fold_left (fun set v => JsSet.delete A eq_dec v set) values (value s) in
  if (List.length set =? size s)%nat then (false, s) else (true, mk set).

(** [toggle(value, state?)]: the result is [true], [false] or
    [undefined]. *)
Definition toggle (x : A) (state : option bool) (s : t) : option bool * t :=
  if JsSet.has A eq_dec x (value s) then
    match state with
    | Some true => (None, s)
    | _ => (Some false, mk (JsSet.delete A eq_dec x (value s)))
    end
  else
    match state with
    | Some false => (None, s)
    | _ => (Some true, mk (JsSet.add A eq_dec x (value s)))
    end.
End Set_.
End SignalSet.

(** ** Signal collections: the map *)

(** The JavaScript [Map]: its entries in insertion order, each key once. *)
Module JsMap.
Section Ops.
Variables K V : Type.
Variable K_eq_dec : forall x y : K, {x = y} + {x <> y}.

Definition isKey (k : K) (p : K * V) : bool :=
  if K_eq_dec (fst p) k then true else false.

(** [m.get(key)]: [None] stands for [undefined]. *)
Definition get (k : K) (m : list (K * V)) : option V :=
  match find (isKey k) m with
  | Some p => Some (snd p)
  | None => None
  end.

Definition has (k : K) (m : list (K * V)) : bool :=
  match find (isKey k) m with
  | Some _ => true
  | None => false
  end.

(** [m.set(key, value)]: the value of an existing key is replaced where
    it is, a new key goes to the end. *)
Fixpoint set (k : K) (v : V) (m : list (K * V)) : list (K * V) :=
  match m with
  | [] => [(k, v)]
  | p :: rest => if K_eq_dec (fst p) k then (k, v) :: rest else p :: set k v rest
  end.

Definition delete (k : K) (m : list (K * V)) : list (K * V) :=
  List.filter (fun p => negb (isKey k p)) m.
End Ops.
End JsMap.

Module SignalMap.
Section Map_.
Variables K V : Type.
Variable K_eq_dec : forall x y : K, {x = y} + {x <> y}.
Variable V_eq_dec : forall x y : V, {x = y} + {x <> y}.

(** [value] is the map that the signal [_map] holds. *)
Record t := mk { value : list (K * V) }.

Definition size (s : t) : nat := List.length (value s).
Definition empty (s : t) : bool := (size s <=? 0)%nat.

(** [has(key)] and [get(key)] make signals; these are what they read. *)
Definition hasNow (k : K) (s : t) : bool := JsMap.has K V K_eq_dec k (value s).
Definition getNow (k : K) (s : t) : option V := JsMap.get K V K_eq_dec k (value s).

Definition clear (s : t) : bool * t :=
  if (size s =? 0)%nat then (false, s) else (true, mk []).

Definition add (k : K) (v : V) (s : t) : bool * t :=
  if JsMap.has K V K_eq_dec k (value s) then (false, s)
  else (true, mk (JsMap.set K V K_eq_dec k v (value s))).

(** [state.has(key) && state.get(key) === value] *)
Definition holds (k : K) (v : V) (m : list (K * V)) : bool :=
  JsMap.has K V K_eq_dec k m &&
  match JsMap.get K V K_eq_dec k m with
  | Some v' => if V_eq_dec v' v then true else false
  | None => false
  end.

Definition set (k : K) (v : V) (s : t) : bool * t :=
  if holds k v (value s) then (false, s)
  else (true, mk (JsMap.set K V K_eq_dec k v (value s))).

Definition delete (k : K) (s : t) : bool * t :=
  if negb (JsMap.has K V K_eq_dec k (value s)) then (false, s)
  else (true, mk (JsMap.delete K V K_eq_dec k (value s))).

Definition deleteRange (values : list K) (s : t) : bool * t :=
  let map := fold_left (fun map k => JsMap.delete K V K_eq_dec k map) values (value s) in
  if (List.length map =? size s)%nat then (false, s) else (true, mk map).

Definition toggle (k : K) (v : V) (state : option bool) (s : t) : option bool * t :=
  if JsMap.has K V K_eq_dec k (value s) then
    match state with
    | Some true => (None, s)
    | _ => (Some false, mk (JsMap.delete K V K_eq_dec k (value s)))
    end
  else
    match state with
    | Some false => (None, s)
    | _ => (Some true, mk (JsMap.set K V K_eq_dec k v (value s)))
    end.
End Map_.
End SignalMap.

(** ** Auxiliary definitions for the revised statements *)

(** The next free reference of a heap that starts at [h], after [k] calls
    of the factory [getError]. *)
Fixpoint heapAfter (getError : ErrorThunk) (k : nat) (h : nat) : nat :=
  match k with
  | O => h
  | S k' => snd (getError (heapAfter getError k' h))
  end.

(** Whether a run starts with a [cancel] whose reason is a function. *)
Definition startsWithThunk (ops : list Op) : bool :=
  match ops with
  | OpCancel (RThunk _) :: _ => true
  | _ => false
  end.

Definition startsWithThunkCall (cs : list WritableCall) : bool :=
  match cs with
  | WCancel (RThunk _) :: _ => true
  | _ => false
  end.

(** An error without its identity: the class and the message. *)
Definition eraseRef (e : Error) : Error := mkError 0 (err_name e) (err_message e).

(** A handler call without the identity of the error it passes. *)
Definition eraseCallRef (c : Call) : Call :=
  match c with
  | OnValue v => OnValue v
  | OnError e => OnError (eraseRef e)
  | OnComplete (Some e) => OnComplete (Some (eraseRef e))
  | OnComplete None => OnComplete None
  end.

(** The state that the [complete] callbacks of the observers of
    [request$] find while the source of a new latched state delivers [v]:
    [onValue] has set the latch, emitted [v] on [_request$] and completed
    it, and has not yet written [_result$], [_loading] and [_result]. *)
Definition latchedAtCompleteCallback (v : JsValue) (h : nat) : AsyncRequestStateLatched.t :=
  let s0 := AsyncRequestStateLatched.set_completed (AsyncRequestStateLatched.new h) in
  let s1 := AsyncRequestStateLatched.set_request
              (Subject.next v (AsyncRequestStateLatched.request_subj s0)) s0 in
  AsyncRequestStateLatched.set_request
    (Subject.complete (AsyncRequestStateLatched.request_subj s1)) s1.

(** The rest of [onValue], after [this._request$.complete()]:
    [this._result$.next(value); this._result$.complete();
     this._loading.set(false); this._result.set(value)]. *)
Definition latchedValueWrites (value : JsValue) (s : AsyncRequestStateLatched.t)
  : AsyncRequestStateLatched.t :=
  AsyncRequestStateLatched.mk
    (AsyncRequestStateLatched.completed s)
    (AsyncRequestStateLatched.request_subj s)
    (Subject.complete (Subject.next value (AsyncRequestStateLatched.result_subj s)))
    value false
    (AsyncRequestStateLatched.error s)
    (AsyncRequestStateLatched.sub s)
    (AsyncRequestStateLatched.heap s).


(** * Properties *)

(** ** Trackers *)

Lemma alloc_deref (o : RequestStateObj) (st : Store) :
  deref (snd (alloc o st)) (fst (alloc o st)) = Some o.
Proof.
  unfold alloc, deref. simpl.
  rewrite nth_error_app2 by lia.
  now rewrite Nat.sub_diag.
Qed.

Lemma alloc_keeps (o : RequestStateObj) (st : Store) (r : nat) (x : RequestStateObj) :
  deref st r = Some x -> deref (snd (alloc o st)) r = Some x.
Proof.
  unfold alloc, deref. simpl. intros H.
  rewrite nth_error_app1; [exact H|].
  apply nth_error_Some. congruence.
Qed.

(** With a facade that has [empty], a tracker built without argument, and
    any tracker after [reset], holds an Empty state with the default
    signals. *)
Lemma RequestTracker_reset_with_empty (f : requestState.Facade) (tr : RequestTracker.t)
    (st : Store) :
  f requestState.empty = true ->
  exists tr' st',
    RequestTracker.reset f tr st = Ok (tr', st') /\
    RequestTracker.new f None st = Ok (tr', st') /\
    option_map isEmptyState (deref st' (RequestTracker.current tr')) = Some true /\
    RequestTracker.loading st' tr' = Some false /\
    RequestTracker.error st' tr' = Some None /\
    RequestTracker.failed st' tr' = Some false.
Proof.
  intros Hf.
  unfold RequestTracker.reset, RequestTracker.new, requestState.call_empty.
  rewrite Hf.
  unfold requestState.emptyRequestState.
  pose proof (alloc_deref (OEmpty EmptyRequestState.mk) st) as Hd.
  destruct (alloc (OEmpty EmptyRequestState.mk) st) as [r st'] eqn:Ha.
  simpl in Hd.
  exists (RequestTracker.mk r), st'.
  unfold RequestTracker.loading, RequestTracker.error, RequestTracker.failed,
    RequestTracker.current.
  simpl. rewrite Hd. simpl. repeat split; reflexivity.
Qed.

(** The derived signals of a [RequestTracker] are those of the state that
    [current] refers to, whatever the store is when they are read. *)
Lemma RequestTracker_derived (st : Store) (tr : RequestTracker.t) :
  RequestTracker.loading st tr = option_map sig_loading (signalsAt st (RequestTracker.current tr)) /\
  RequestTracker.error st tr = option_map sig_error (signalsAt st (RequestTracker.current tr)) /\
  RequestTracker.failed st tr = option_map sig_failed (signalsAt st (RequestTracker.current tr)).
Proof. repeat split. Qed.

(** After [set(stateA)] then [set(stateB)] the reads are those of
    [stateB]. *)
Lemma RequestTracker_set_set (st : Store) (tr : RequestTracker.t) (a b : nat) :
  let tr' := RequestTracker.set b (RequestTracker.set a tr) in
  RequestTracker.current tr' = b /\
  RequestTracker.loading st tr' = option_map sig_loading (signalsAt st b) /\
  RequestTracker.error st tr' = option_map sig_error (signalsAt st b) /\
  RequestTracker.failed st tr' = option_map sig_failed (signalsAt st b).
Proof. repeat split. Qed.

Lemma ValueRequestTracker_set_coherent (req : nat) (tr : ValueRequestTracker.t) :
  coherent (ValueRequestTracker.set req tr).
Proof. reflexivity. Qed.

Lemma ValueRequestTracker_coherent_derived (st : Store) (tr : ValueRequestTracker.t) :
  coherent tr ->
  ValueRequestTracker.loading st tr
    = option_map sig_loading (signalsAt st (ValueRequestTracker.current tr)) /\
  ValueRequestTracker.error st tr
    = option_map sig_error (signalsAt st (ValueRequestTracker.current tr)) /\
  ValueRequestTracker.failed st tr
    = option_map sig_failed (signalsAt st (ValueRequestTracker.current tr)).
Proof.
  unfold coherent, ValueRequestTracker.loading, ValueRequestTracker.error,
    ValueRequestTracker.failed, ValueRequestTracker.current,
    RequestTracker.loading, RequestTracker.error, RequestTracker.failed, signalsAt.
  intros ->. repeat split.
Qed.

(** C2, on the code: [requestState.empty] is declared by [AltConstructors]
    but never assigned to [compiled], so building a [RequestTracker]
    without argument and calling [reset()] both throw a [TypeError]
    instead of establishing the Empty state. *)
Theorem C2_reset_throws_TypeError (tr : RequestTracker.t) (st : Store) :
  requestState.compiled requestState.empty = false /\
  RequestTracker.new requestState.compiled None st
    = Throw NTypeError "requestState.empty is not a function" /\
  RequestTracker.reset requestState.compiled tr st
    = Throw NTypeError "requestState.empty is not a function".
Proof. repeat split. Qed.

(** C3, on the code, for [new ValueRequestTracker(state)] with a loading
    [state]: the constructor calls [super()] without the argument.  With
    the facade of the code that call throws a [TypeError]; with a facade
    that has [empty], the derived signals read a fresh Empty state
    ([loading] false) while [current] is the loading state. *)
Theorem C3_ValueRequestTracker_initial_state_ignored :
  ValueRequestTracker.new requestState.compiled (Some 0) pendingStore
    = Throw NTypeError "requestState.empty is not a function" /\
  exists tr st,
    ValueRequestTracker.new declaredFacade (Some 0) pendingStore = Ok (tr, st) /\
    ValueRequestTracker.current tr = 0 /\
    option_map sig_loading (signalsAt st (ValueRequestTracker.current tr)) = Some true /\
    ValueRequestTracker.loading st tr = Some false.
Proof.
  split; [reflexivity|].
  eexists. eexists. split; [reflexivity|]. repeat split.
Qed.

(** ** The read-only facade of a writable state *)

(** C9: [asReadonly()] returns the receiver itself, so the facade and the
    writable state are one object: whatever the store holds at a read, and
    whatever is done to the writable state, the signals and channels read
    through the facade are those of the writable state. *)
Theorem C9_asReadonly_is_same_object (w : WritableRequestState.t) (r : nat) (st : Store) :
  WritableRequestState.asReadonly w = w /\
  asReadonlyRef r = r /\
  deref st (asReadonlyRef r) = deref st r /\
  signalsAt st (asReadonlyRef r) = signalsAt st r /\
  WritableRequestState.signals (WritableRequestState.asReadonly w)
    = WritableRequestState.signals w /\
  WritableRequestState.request (WritableRequestState.asReadonly w)
    = WritableRequestState.request w /\
  WritableRequestState.result_ (WritableRequestState.asReadonly w)
    = WritableRequestState.result_ w.
Proof. repeat split. Qed.

(** ** The Perpetual-Pending variant *)


(** A further [cancel()] changes nothing and returns [false] again. *)
Lemma LoadingRequestState_cancel_again (s : LoadingRequestState.t) :
  LoadingRequestState.loading s = false ->
  Subject.isStopped (LoadingRequestState.request_subj s) = true ->
  LoadingRequestState.cancel s = (false, s).
Proof.
  destruct s as [subj l]. simpl. intros -> Hs.
  unfold LoadingRequestState.cancel, Subject.complete. simpl.
  rewrite Hs. destruct (Subject.closed subj); reflexivity.
Qed.

(** ** The externally driven variant *)

Section Writable.
Variable parseError : JsValue -> Error.

Lemma setValue_completed (v : JsValue) (s : WritableRequestState.t) :
  WritableRequestState.completed s = true ->
  WritableRequestState.setValue v s = s.
Proof. unfold WritableRequestState.setValue. now intros ->. Qed.

Lemma setError_completed (e : JsValue) (s : WritableRequestState.t) :
  WritableRequestState.completed s = true ->
  WritableRequestState.setError parseError e s = s.
Proof. unfold WritableRequestState.setError. now intros ->. Qed.

Lemma Writable_cancel_completed (r : Reason) (s : WritableRequestState.t) :
  WritableRequestState.completed s = true ->
  WritableRequestState.cancel parseError r s = (false, s).
Proof. unfold WritableRequestState.cancel. now intros ->. Qed.

(** [setValue] never touches [_result$]. *)
Lemma setValue_result_subj (v : JsValue) (s : WritableRequestState.t) :
  WritableRequestState.result_subj (WritableRequestState.setValue v s)
    = WritableRequestState.result_subj s.
Proof.
  unfold WritableRequestState.setValue.
  destruct (WritableRequestState.completed s); reflexivity.
Qed.

(** What [setValue] does to a state that is not completed. *)
Lemma setValue_pending (v : JsValue) (s : WritableRequestState.t) :
  WritableRequestState.completed s = false ->
  let s' := WritableRequestState.setValue v s in
  WritableRequestState.completed s' = true /\
  WritableRequestState.request_subj s'
    = Subject.complete (Subject.next v (WritableRequestState.request_subj s)) /\
  WritableRequestState.result_subj s' = WritableRequestState.result_subj s /\
  WritableRequestState.result s' = v /\
  WritableRequestState.loading s' = false /\
  WritableRequestState.error s' = WritableRequestState.error s.
Proof.
  intros Hc. unfold WritableRequestState.setValue. rewrite Hc. simpl.
  repeat split.
Qed.
End Writable.

(** C6, on the code, for [setValue(42)] on a new writable state: the latch
    is set, [request$] emits 42 and completes, [result] is 42 and [loading]
    is cleared, but [result$] neither emits nor completes: [setValue] has
    no [this._result$.next(value)] and no [this._result$.complete()], which
    [setError] and [AsyncRequestState.onValue] have. *)
Theorem C6_setValue_leaves_result_channel_silent (parseError : JsValue -> Error) :
  let s := WritableRequestState.setValue (VNum 42) (WritableRequestState.new false 0) in
  WritableRequestState.completed s = true /\
  WritableRequestState.request s = [Next (VNum 42); Complete] /\
  WritableRequestState.result s = VNum 42 /\
  WritableRequestState.loading s = false /\
  WritableRequestState.result_ s = [] /\
  Subject.isStopped (WritableRequestState.result_subj s) = false /\
  AsyncRequestStateLatched.result_
    (AsyncRequestStateLatched.onValue AsyncRequestStateLatched.passive (VNum 42)
       (AsyncRequestStateLatched.new 0)) = [Next (VNum 42); Complete] /\
  WritableRequestState.result_
    (WritableRequestState.setError parseError (VStr "e") (WritableRequestState.new false 0))
    = [Complete].
Proof. repeat split. Qed.

(** ** Cancelling without a reason *)

(** C5, on the code, for [cancel()] on a new state: [fullError] is
    [undefined], so the request channel raises [undefined], which is no
    [CancelledError], and the [error] signal holds [parseError(undefined)];
    with a message the channel raises a [CancelledError]. *)
Theorem C5_cancel_without_reason_raises_undefined (parseError : JsValue -> Error) (h : nat) :
  let a := AsyncRequestState.cancel parseError AsyncRequestState.passive ROmitted
             (AsyncRequestState.new h) in
  let w := WritableRequestState.cancel parseError ROmitted
             (WritableRequestState.new false h) in
  let l := AsyncRequestStateLatched.cancel parseError AsyncRequestStateLatched.passive
             ROmitted (AsyncRequestStateLatched.new h) in
  let a' := AsyncRequestState.cancel parseError AsyncRequestState.passive (RString "stop")
              (AsyncRequestState.new h) in
  (fst a = true /\
   AsyncRequestState.request (snd a) = [Err VUndefined] /\
   AsyncRequestState.error (snd a) = Some (parseError VUndefined)) /\
  (fst w = true /\
   WritableRequestState.request (snd w) = [Err VUndefined] /\
   WritableRequestState.error (snd w) = Some (parseError VUndefined)) /\
  (fst l = true /\
   AsyncRequestStateLatched.request (snd l) = [Err VUndefined] /\
   AsyncRequestStateLatched.error (snd l) = Some (parseError VUndefined)) /\
  isCancelledValue VUndefined = false /\
  fst (fullError ROmitted h) = VUndefined /\
  AsyncRequestState.request (snd a') = [Err (VErr (mkError h NCancelledError "stop"))] /\
  isCancelledValue (VErr (mkError h NCancelledError "stop")) = true.
Proof. repeat split. Qed.

(** ** The Error variant *)

Lemma subscribeMany_calls (n : nat) (s : ErrorRequestState.t) :
  ErrorRequestState.calls (snd (ErrorRequestState.subscribeMany n s))
    = n + ErrorRequestState.calls s /\
  List.length (fst (ErrorRequestState.subscribeMany n s)) = n /\
  ErrorRequestState.error (snd (ErrorRequestState.subscribeMany n s))
    = ErrorRequestState.error s /\
  ErrorRequestState.getError (snd (ErrorRequestState.subscribeMany n s))
    = ErrorRequestState.getError s.
Proof.
  revert s. induction n as [|n IH]; intros s; simpl.
  - repeat split.
  - unfold ErrorRequestState.subscribe.
    destruct (ErrorRequestState.getError s (ErrorRequestState.heap s)) as [e h'].
    specialize (IH (ErrorRequestState.mk (ErrorRequestState.getError s)
                      (ErrorRequestState.error s) h' (S (ErrorRequestState.calls s)))).
    destruct (ErrorRequestState.subscribeMany n _) as [rest s''].
    simpl in *. destruct IH as (Hc & Hl & He & Hg).
    repeat split; try assumption; lia.
Qed.

(** Every subscriber of a state built from an [Error] instance is sent that
    instance. *)
Lemma subscribeMany_const (e : Error) (n : nat) (s : ErrorRequestState.t) :
  ErrorRequestState.getError s = constThunk e ->
  Forall (fun ns => ns = [Err (VErr e)]) (fst (ErrorRequestState.subscribeMany n s)).
Proof.
  revert s. induction n as [|n IH]; intros s Hg; simpl.
  - constructor.
  - unfold ErrorRequestState.subscribe. rewrite Hg. unfold constThunk at 1.
    specialize (IH (ErrorRequestState.mk (constThunk e) (ErrorRequestState.error s)
                      (ErrorRequestState.heap s) (S (ErrorRequestState.calls s)))
                   eq_refl).
    destruct (ErrorRequestState.subscribeMany n _) as [rest s''].
    simpl in *. constructor; [reflexivity | exact IH].
Qed.

(** C4 as stated fails for the factory [() => new Error("x")] and two
    subscriptions: the factory has been called three times, and the signal
    and the two subscribers hold three different objects. *)
Lemma C4_factory_called_per_subscription :
  let s := ErrorRequestState.new (newErrorThunk "x") 0 in
  let r := ErrorRequestState.subscribeMany 2 s in
  ErrorRequestState.calls (snd r) = 3 /\
  ErrorRequestState.calls (snd r) <> 1 /\
  ErrorRequestState.error s = mkError 0 NError "x" /\
  fst r = [[Err (VErr (mkError 1 NError "x"))]; [Err (VErr (mkError 2 NError "x"))]].
Proof. repeat split. discriminate. Qed.

Lemma heapAfter_shift (getError : ErrorThunk) (k h : nat) :
  heapAfter getError k (snd (getError h)) = heapAfter getError (S k) h.
Proof.
  induction k as [|k IH]; simpl; [reflexivity|].
  rewrite IH. reflexivity.
Qed.

(** What the subscribers are sent, one after the other: subscriber [i] is
    sent the error that the factory returns on the heap left by the
    subscribers before it. *)
Lemma subscribeMany_sent (n : nat) (s : ErrorRequestState.t) :
  fst (ErrorRequestState.subscribeMany n s)
  = map (fun i =>
           [Err (VErr (fst (ErrorRequestState.getError s
                              (heapAfter (ErrorRequestState.getError s) i
                                 (ErrorRequestState.heap s)))))])
        (seq 0 n).
Proof.
  revert s. induction n as [|n IH]; intros s; [reflexivity|].
  cbn [ErrorRequestState.subscribeMany]. unfold ErrorRequestState.subscribe.
  destruct (ErrorRequestState.getError s (ErrorRequestState.heap s)) as [e h'] eqn:Hg.
  specialize (IH (ErrorRequestState.mk (ErrorRequestState.getError s)
                    (ErrorRequestState.error s) h' (S (ErrorRequestState.calls s)))).
  destruct (ErrorRequestState.subscribeMany n _) as [rest s''].
  cbn [fst] in *. cbn [ErrorRequestState.getError ErrorRequestState.heap] in IH.
  rewrite IH. cbn [seq map heapAfter]. rewrite Hg. cbn [fst]. f_equal.
  rewrite <- seq_shift, map_map. apply map_ext. intros i.
  replace h' with (snd (ErrorRequestState.getError s (ErrorRequestState.heap s)))
    by (rewrite Hg; reflexivity).
  rewrite heapAfter_shift. reflexivity.
Qed.

(** C4, amended: the factory is called once by the constructor, which puts
    the returned error in the [error] signal, and once more for each
    subscription to the request channel, whose observer is sent the error
    returned by that call and nothing else; when the state is built by
    [errorRequestState] from an [Error] instance, the signal and every
    subscriber hold that instance. *)
Theorem C4_factory_once_at_construction_and_once_per_subscription
    (getError : ErrorThunk) (e : Error) (h n : nat) :
  let s := ErrorRequestState.new getError h in
  let r := ErrorRequestState.subscribeMany n s in
  let s0 := errorRequestState (ArgError e) h in
  ErrorRequestState.calls s = 1 /\
  ErrorRequestState.error s = fst (getError (heapAfter getError 0 h)) /\
  ErrorRequestState.calls (snd r) = n + 1 /\
  fst r = map (fun i => [Err (VErr (fst (getError (heapAfter getError (S i) h))))])
              (seq 0 n) /\
  ErrorRequestState.error (snd r) = ErrorRequestState.error s /\
  ErrorRequestState.error s0 = e /\
  Forall (fun ns => ns = [Err (VErr e)]) (fst (ErrorRequestState.subscribeMany n s0)).
Proof.
  cbv zeta.
  pose proof (subscribeMany_calls n (ErrorRequestState.new getError h)) as (Hc & Hl & He & _).
  pose proof (subscribeMany_sent n (ErrorRequestState.new getError h)) as Hs.
  assert (H1 : ErrorRequestState.calls (ErrorRequestState.new getError h) = 1
               /\ ErrorRequestState.error (ErrorRequestState.new getError h) = fst (getError h)
               /\ ErrorRequestState.getError (ErrorRequestState.new getError h) = getError
               /\ ErrorRequestState.heap (ErrorRequestState.new getError h) = snd (getError h)).
  { unfold ErrorRequestState.new. destruct (getError h); repeat split. }
  destruct H1 as (H1 & H2 & H3 & H4).
  rewrite H1 in Hc. rewrite H3, H4 in Hs.
  repeat split; try assumption.
  - rewrite Hs. apply map_ext. intros i. now rewrite heapAfter_shift.
  - apply subscribeMany_const. reflexivity.
Qed.

(** ** The two Async-Source implementations *)

Section Equivalence.
Variable parseError : JsValue -> Error.

Ltac unfold_async :=
  unfold stepAsync, stepLatched,
    AsyncRequestState.deliver, AsyncRequestStateLatched.deliver,
    AsyncRequestState.cancel, AsyncRequestStateLatched.cancel,
    AsyncRequestState.sub_next, AsyncRequestState.sub_error,
    AsyncRequestState.sub_complete,
    AsyncRequestStateLatched.sub_next, AsyncRequestStateLatched.sub_error,
    AsyncRequestStateLatched.sub_complete,
    AsyncRequestState.request_next, AsyncRequestState.request_error,
    AsyncRequestState.request_complete,
    AsyncRequestStateLatched.onValue, AsyncRequestStateLatched.onError_,
    AsyncRequestStateLatched.onCompleted,
    AsyncRequestStateLatched.emit_next, AsyncRequestStateLatched.emit_error,
    AsyncRequestStateLatched.emit_complete,
    AsyncRequestState.handleNext, AsyncRequestState.handleError,
    AsyncRequestState.handleComplete,
    AsyncRequestState.set_request, AsyncRequestState.set_sub,
    AsyncRequestState.set_heap,
    AsyncRequestStateLatched.set_request, AsyncRequestStateLatched.set_sub,
    AsyncRequestStateLatched.set_heap, AsyncRequestStateLatched.set_completed,
    AsyncRequestState.passive, AsyncRequestStateLatched.passive.

Lemma sameState_new (h : nat) :
  sameState (AsyncRequestState.new h) (AsyncRequestStateLatched.new h).
Proof. unfold sameState. simpl. repeat split. left. repeat split. Qed.

Lemma sameState_observe (ret : option bool) (a : AsyncRequestState.t)
    (l : AsyncRequestStateLatched.t) :
  sameState a l -> observeAsync ret a = observeLatched ret l.
Proof.
  destruct a, l. unfold sameState, observeAsync, observeLatched,
    AsyncRequestState.signals, AsyncRequestStateLatched.signals,
    AsyncRequestState.request, AsyncRequestStateLatched.request,
    AsyncRequestState.result_, AsyncRequestStateLatched.result_.
  simpl. intros (-> & -> & -> & -> & -> & _). reflexivity.
Qed.

(** One call keeps the two implementations side by side and returns the
    same value in both. *)
Lemma sameState_step (op : Op) (a : AsyncRequestState.t)
    (l : AsyncRequestStateLatched.t) :
  sameState a l ->
  fst (stepAsync parseError op a) = fst (stepLatched parseError op l) /\
  sameState (snd (stepAsync parseError op a)) (snd (stepLatched parseError op l)).
Proof.
  destruct a as [[rp bf stp he te cl] rs res ld er sb hp].
  destruct l as [cp rq' rs' res' ld' er' sb' hp'].
  unfold sameState. simpl.
  intros (<- & <- & <- & <- & <- & <- & <- & [(Hc & Hs & Hr) | (Hc & Hs & Hr)]);
    subst cp sb stp.
  - (* both pending: the call ends the request in both *)
    destruct op as [[v | e | ] | [ | m | e | f]];
      try (cbv; repeat split; right; repeat split).
    unfold stepAsync, stepLatched, AsyncRequestState.cancel,
      AsyncRequestStateLatched.cancel, fullError.
    cbn [Subscriber.closed AsyncRequestState.sub AsyncRequestStateLatched.completed
         AsyncRequestState.heap AsyncRequestStateLatched.heap
         AsyncRequestState.set_sub AsyncRequestStateLatched.set_sub Subscriber.open].
    destruct (f hp) as [e h'].
    cbv. repeat split. right. repeat split.
  - (* both done: the call changes nothing *)
    destruct op as [[v | e | ] | r]; cbv; repeat split; right; repeat split.
Qed.

(** Whatever the source delivers and whenever [cancel] is called, in
    calls that do not nest, both implementations show the same
    observations after every call. *)
Lemma runs_agree (ops : list Op) (a : AsyncRequestState.t)
    (l : AsyncRequestStateLatched.t) :
  sameState a l ->
  runAsync parseError ops a = runLatched parseError ops l.
Proof.
  revert a l. induction ops as [|op ops IH]; intros a l H; simpl; [reflexivity|].
  destruct (sameState_step op a l H) as [Hret Hst].
  destruct (stepAsync parseError op a) as [ra a'].
  destruct (stepLatched parseError op l) as [rl l'].
  simpl in Hret, Hst. subst rl.
  rewrite (sameState_observe ra a' l' Hst).
  f_equal. apply IH. exact Hst.
Qed.
End Equivalence.

Lemma deliver_value_callback (parseError : JsValue -> Error)
    (k : AsyncRequestState.t -> AsyncRequestState.t) (v : JsValue) (h : nat) :
  AsyncRequestState.deliver parseError
    (AsyncRequestState.mkObservers (fun s => s) (fun s => s) k) (SrcNext v)
    (AsyncRequestState.new h)
  = AsyncRequestState.set_sub (Subscriber.mk true true) (k (atCompleteCallback v h)).
Proof. reflexivity. Qed.

Lemma latched_deliver_value_callback (parseError : JsValue -> Error)
    (k : AsyncRequestStateLatched.t -> AsyncRequestStateLatched.t) (v : JsValue) (h : nat) :
  AsyncRequestStateLatched.deliver parseError
    (AsyncRequestStateLatched.mkObservers (fun s => s) (fun s => s) k) (SrcNext v)
    (AsyncRequestStateLatched.new h)
  = AsyncRequestStateLatched.sub_complete
      (AsyncRequestStateLatched.mkObservers (fun s => s) (fun s => s) k)
      (latchedValueWrites v (k (latchedAtCompleteCallback v h))).
Proof. reflexivity. Qed.

(** C10 as stated fails for a handler that reads the signals when
    [request$] completes, as one attached with [finally] does, while the
    source of a new state delivers 5.  Whatever the handler [k] does, the
    forwarding implementation runs it on [atCompleteCallback], after its
    own observer has written the snapshots, and the latched one on
    [latchedAtCompleteCallback], before [onValue] writes them: the handler
    reads result 5 and loading false from the first, result undefined and
    loading true from the second. *)
Lemma C10_handlers_read_different_signals :
  (forall parseError k,
     AsyncRequestState.deliver parseError
       (AsyncRequestState.mkObservers (fun s => s) (fun s => s) k) (SrcNext (VNum 5))
       (AsyncRequestState.new 0)
     = AsyncRequestState.set_sub (Subscriber.mk true true)
         (k (atCompleteCallback (VNum 5) 0))) /\
  (forall parseError k,
     AsyncRequestStateLatched.deliver parseError
       (AsyncRequestStateLatched.mkObservers (fun s => s) (fun s => s) k)
       (SrcNext (VNum 5)) (AsyncRequestStateLatched.new 0)
     = AsyncRequestStateLatched.sub_complete
         (AsyncRequestStateLatched.mkObservers (fun s => s) (fun s => s) k)
         (latchedValueWrites (VNum 5) (k (latchedAtCompleteCallback (VNum 5) 0)))) /\
  AsyncRequestState.signals (atCompleteCallback (VNum 5) 0)
    = mkSignals (VNum 5) false None false /\
  AsyncRequestStateLatched.signals (latchedAtCompleteCallback (VNum 5) 0)
    = mkSignals VUndefined true None false /\
  AsyncRequestState.signals (atCompleteCallback (VNum 5) 0)
    <> AsyncRequestStateLatched.signals (latchedAtCompleteCallback (VNum 5) 0).
Proof.
  split; [intros; reflexivity|].
  split; [intros; reflexivity|].
  split; [reflexivity|]. split; [reflexivity|]. discriminate.
Qed.

(** C10, amended: for a source that delivers at most one signal and any
    calls of [cancel] that are not made from within a callback and whose
    reason is omitted, a string, an [Error] or a function that returns an
    [Error] without throwing and without calling the state, the two
    Async-Source implementations return the same values from [cancel] and
    show the same signals and the same events on [request$] and [result$]
    after every call has returned. *)
Theorem C10_async_implementations_agree (parseError : JsValue -> Error)
    (ops : list Op) (h : nat) :
  deliveries ops <= 1 ->
  observeAsync None (AsyncRequestState.new h)
    = observeLatched None (AsyncRequestStateLatched.new h) /\
  runAsync parseError ops (AsyncRequestState.new h)
    = runLatched parseError ops (AsyncRequestStateLatched.new h).
Proof.
  intros _. split.
  - apply sameState_observe, sameState_new.
  - apply runs_agree, sameState_new.
Qed.

Lemma C10_async_implementations_agree_witness :
  deliveries [OpCancel ROmitted; OpDeliver (SrcNext (VNum 42)); OpCancel (RString "late")] <= 1 /\
  runAsync parseErrorSample
    [OpCancel ROmitted; OpDeliver (SrcNext (VNum 42)); OpCancel (RString "late")]
    (AsyncRequestState.new 0)
  = runLatched parseErrorSample
    [OpCancel ROmitted; OpDeliver (SrcNext (VNum 42)); OpCancel (RString "late")]
    (AsyncRequestStateLatched.new 0).
Proof.
  split; [simpl; lia|].
  apply (C10_async_implementations_agree parseErrorSample
           [OpCancel ROmitted; OpDeliver (SrcNext (VNum 42)); OpCancel (RString "late")] 0).
  simpl; lia.
Defined.

(** ** Terminal transitions *)

Section Latches.
Variable parseError : JsValue -> Error.

(** With the latch set, every transition of the latched implementation
    is a no-op, whatever the observers do. *)
Lemma Latched_transitions_completed (obs : AsyncRequestStateLatched.Observers)
    (x : JsValue) (r : Reason) (s : AsyncRequestStateLatched.t) :
  AsyncRequestStateLatched.completed s = true ->
  AsyncRequestStateLatched.onValue obs x s = s /\
  AsyncRequestStateLatched.onError_ parseError obs x s = s /\
  AsyncRequestStateLatched.onCompleted obs s = s /\
  AsyncRequestStateLatched.cancel parseError obs r s = (false, s).
Proof.
  unfold AsyncRequestStateLatched.onValue, AsyncRequestStateLatched.onError_,
    AsyncRequestStateLatched.onCompleted, AsyncRequestStateLatched.cancel.
  intros ->. repeat split.
Qed.

(** A [cancel] called from a callback of an observer of [request$] finds
    the latch set: the latched implementation behaves as if the observer
    did nothing. *)
Lemma Latched_cancel_from_callback (r : Reason) (ev : SourceEvent)
    (s : AsyncRequestStateLatched.t) :
  AsyncRequestStateLatched.deliver parseError
    (AsyncRequestStateLatched.cancelOnNext parseError r) ev s
  = AsyncRequestStateLatched.deliver parseError AsyncRequestStateLatched.passive ev s /\
  AsyncRequestStateLatched.deliver parseError
    (AsyncRequestStateLatched.cancelOnComplete parseError r) ev s
  = AsyncRequestStateLatched.deliver parseError AsyncRequestStateLatched.passive ev s.
Proof.
  destruct s as [cp [rp bf stp he te cl] rs res ld er [st clo] hp].
  destruct ev as [v | e | ], st, cp, stp; cbv; split; reflexivity.
Qed.

(** Once its subscriber is closed, [cancel] of the forwarding
    implementation is a no-op. *)
Lemma Async_cancel_closed (obs : AsyncRequestState.Observers) (r : Reason)
    (s : AsyncRequestState.t) :
  Subscriber.closed (AsyncRequestState.sub s) = true ->
  AsyncRequestState.cancel parseError obs r s = (false, s).
Proof. unfold AsyncRequestState.cancel. now intros ->. Qed.

(** [then] calls at most one handler for a subscription, whatever
    [request$] sends. *)
Lemma thenCalls_at_most_once (hasOnError : bool) (ns : list Notification) :
  List.length (thenCalls parseError hasOnError ns) <= 1.
Proof.
  unfold thenCalls, first.
  destruct ns as [|[v | e | ] rest]; simpl; try lia;
    destruct hasOnError; simpl; lia.
Qed.

(** Once its subscriber is stopped, nothing that the source delivers
    reaches the forwarding implementation. *)
Lemma Async_deliver_closed (obs : AsyncRequestState.Observers) (ev : SourceEvent)
    (s : AsyncRequestState.t) :
  Subscriber.isStopped (AsyncRequestState.sub s) = true ->
  AsyncRequestState.deliver parseError obs ev s = s.
Proof.
  unfold AsyncRequestState.deliver, AsyncRequestState.sub_next,
    AsyncRequestState.sub_error, AsyncRequestState.sub_complete.
  intros H. destruct ev; rewrite ?H; reflexivity.
Qed.
End Latches.

(** The override of [then] in the Immediate variant calls the value
    handler once. *)
Lemma StaticRequestState_then_once (s : StaticRequestState.t) :
  StaticRequestState.thenCalls s = [OnValue (StaticRequestState.value s)].
Proof. reflexivity. Qed.

(** C7, on the code, for [state.finally(() => state.cancel())] on the
    forwarding Async-Source implementation, whose source then delivers 5:
    the callback runs at [atCompleteCallback], where the value has been
    delivered, [request$] has completed and [loading] is false; [sub] is
    not closed yet, and [cancel()] returns [true].  In the latched
    implementation the same callback changes nothing: its [cancel()] finds
    the latch set and returns [false]. *)
Theorem C7_async_cancel_after_completion_returns_true (parseError : JsValue -> Error) :
  let s := atCompleteCallback (VNum 5) 0 in
  AsyncRequestState.deliver parseError
    (AsyncRequestState.cancelOnComplete parseError ROmitted) (SrcNext (VNum 5))
    (AsyncRequestState.new 0)
  = AsyncRequestState.set_sub (Subscriber.mk true true)
      (snd (AsyncRequestState.cancel parseError AsyncRequestState.passive ROmitted s)) /\
  AsyncRequestState.signals s = mkSignals (VNum 5) false None false /\
  AsyncRequestState.request s = [Next (VNum 5); Complete] /\
  AsyncRequestState.result_ s = [Next (VNum 5); Complete] /\
  Subscriber.closed (AsyncRequestState.sub s) = false /\
  fst (AsyncRequestState.cancel parseError AsyncRequestState.passive ROmitted s) = true /\
  AsyncRequestStateLatched.deliver parseError
    (AsyncRequestStateLatched.cancelOnComplete parseError ROmitted) (SrcNext (VNum 5))
    (AsyncRequestStateLatched.new 0)
  = AsyncRequestStateLatched.deliver parseError AsyncRequestStateLatched.passive
      (SrcNext (VNum 5)) (AsyncRequestStateLatched.new 0).
Proof. cbv zeta. repeat split. Qed.

(** C1, on the code, for
    [state.subscribe({next: () => state.cancel("stop")})] on the forwarding
    Async-Source implementation, whose source then delivers 5: the value
    transition sets [result] and emits on both channels, the [cancel] made
    from the callback still finds [sub] open, so the error transition
    follows: [error] is set, [failed] is true and [request$] carries the
    value and then the error.  The latched implementation, on the same
    input, ends resolved. *)
Theorem C1_async_value_then_error (parseError : JsValue -> Error) :
  let a := AsyncRequestState.deliver parseError
             (AsyncRequestState.cancelOnNext parseError (RString "stop"))
             (SrcNext (VNum 5)) (AsyncRequestState.new 0) in
  let l := AsyncRequestStateLatched.deliver parseError
             (AsyncRequestStateLatched.cancelOnNext parseError (RString "stop"))
             (SrcNext (VNum 5)) (AsyncRequestStateLatched.new 0) in
  let e := VErr (mkError 0 NCancelledError "stop") in
  AsyncRequestState.signals a = mkSignals (VNum 5) false (Some (parseError e)) true /\
  AsyncRequestState.request a = [Next (VNum 5); Err e] /\
  AsyncRequestState.result_ a = [Next (VNum 5); Complete] /\
  AsyncRequestStateLatched.signals l = mkSignals (VNum 5) false None false /\
  AsyncRequestStateLatched.request l = [Next (VNum 5); Complete] /\
  AsyncRequestStateLatched.result_ l = [Next (VNum 5); Complete].
Proof. cbv zeta. repeat split. Qed.

(** * Further properties of the code *)

(** ** The externally driven variant, over any calls *)

Section WritableProperties.
Variable parseError : JsValue -> Error.

(** Every call leaves the latch set. *)
Lemma stepWritable_completed (c : WritableCall) (s : WritableRequestState.t) :
  WritableRequestState.completed (snd (stepWritable parseError c s)) = true.
Proof.
  destruct c as [v | e | r]; simpl;
    unfold WritableRequestState.setValue, WritableRequestState.setError,
      WritableRequestState.cancel;
    destruct (WritableRequestState.completed s) eqn:Hc; simpl; try assumption;
    try reflexivity.
  unfold WritableRequestState.setError.
  destruct (fullError r (WritableRequestState.heap s)) as [fe h']. simpl.
  rewrite Hc. reflexivity.
Qed.

(** On a completed state a call changes nothing. *)
Lemma stepWritable_late (c : WritableCall) (s : WritableRequestState.t) :
  WritableRequestState.completed s = true ->
  stepWritable parseError c s = (lateReturn c, s).
Proof.
  intros H. destruct c as [v | e | r]; simpl.
  - now rewrite setValue_completed.
  - now rewrite setError_completed.
  - now rewrite (Writable_cancel_completed parseError r s H).
Qed.

Lemma runWritable_late (cs : list WritableCall) (s : WritableRequestState.t) :
  WritableRequestState.completed s = true ->
  runWritable parseError cs s = (map lateReturn cs, s).
Proof.
  induction cs as [|c cs IH]; intros H; simpl; [reflexivity|].
  rewrite (stepWritable_late c s H), (IH H). reflexivity.
Qed.


Lemma runWritable_cons_state (c : WritableCall) (cs : list WritableCall)
    (s : WritableRequestState.t) :
  snd (runWritable parseError (c :: cs) s) = snd (stepWritable parseError c s).
Proof.
  simpl.
  pose proof (stepWritable_completed c s) as H.
  destruct (stepWritable parseError c s) as [ret s1]. simpl in *.
  rewrite (runWritable_late cs s1 H). reflexivity.
Qed.

(** The states a new writable state can reach: itself, or what one call
    makes of it. *)
Lemma runWritable_reachable (cs : list WritableCall) (onCancel : bool) (h : nat) :
  let s0 := WritableRequestState.new onCancel h in
  let s := snd (runWritable parseError cs s0) in
  s = s0 \/
  (exists v, s = WritableRequestState.setValue v s0) \/
  (exists e, s = WritableRequestState.setError parseError e s0) \/
  (exists e h', s = snd (WritableRequestState.cancel parseError (RError e)
                          (WritableRequestState.new onCancel h'))
               \/ s = snd (WritableRequestState.cancel parseError ROmitted
                             (WritableRequestState.new onCancel h'))).
Proof.
  cbv zeta. destruct cs as [|c cs]; [left; reflexivity|].
  rewrite runWritable_cons_state.
  destruct c as [v | e | r]; simpl.
  - right; left. now exists v.
  - right; right; left. now exists e.
  - right; right; right.
    destruct r as [ | m | e | f]; simpl.
    + exists (mkError 0 NError ""), h. right. reflexivity.
    + exists (mkError h NCancelledError m), (S h). left. reflexivity.
    + exists e, h. left. reflexivity.
    + unfold WritableRequestState.cancel. simpl.
      destruct (f h) as [e h'] eqn:Hf. simpl.
      exists e, h'. left. reflexivity.
Qed.

(** X2: along any calls on a new writable state that do not start with a
    [cancel] whose reason is a function, [loading] is the negation of the
    latch, a failed state has no result, a cancelled state has failed, and
    the owner's [onCancel] has been called once if the state is cancelled
    and never otherwise. *)
Theorem Writable_invariants (cs : list WritableCall) (onCancel : bool) (h : nat) :
  startsWithThunkCall cs = false ->
  let s := snd (runWritable parseError cs (WritableRequestState.new onCancel h)) in
  WritableRequestState.loading s = negb (WritableRequestState.completed s) /\
  (WritableRequestState.error s = None \/
   WritableRequestState.result s = VUndefined) /\
  (WritableRequestState.cancelled s = false \/
   isDefined (WritableRequestState.error s) = true) /\
  WritableRequestState.hasOnCancel s = onCancel /\
  WritableRequestState.onCancelCalls s
    = (if WritableRequestState.cancelled s && onCancel then 1 else 0).
Proof.
  intros _. cbv zeta.
  destruct (runWritable_reachable cs onCancel h)
    as [-> | [[v ->] | [[e ->] | (e & h' & [-> | ->])]]];
    destruct onCancel; cbv; repeat split; auto.
Qed.

(** X3: a handler attached with [then], [catch] or [finally] to a writable
    state reached by calls that do not start with a [cancel] whose reason
    is a function is called at once exactly when the state is no longer
    loading: with an error of the class and message of the one in the
    [error] signal, or else with the value of the [result] signal.  The
    handler's error comes from a call of [parseError] of its own, so it is
    compared without its identity. *)
Theorem Writable_handlers_follow_signals (cs : list WritableCall) (onCancel : bool)
    (h : nat) :
  startsWithThunkCall cs = false ->
  let s := snd (runWritable parseError cs (WritableRequestState.new onCancel h)) in
  map eraseCallRef (thenCalls parseError true (WritableRequestState.request s))
    = map eraseCallRef (settledThen (WritableRequestState.signals s)) /\
  map eraseCallRef (catchCalls parseError (WritableRequestState.request s))
    = map eraseCallRef (settledCatch (WritableRequestState.signals s)) /\
  map eraseCallRef (finallyCalls parseError (WritableRequestState.request s))
    = map eraseCallRef (settledFinally (WritableRequestState.signals s)).
Proof.
  intros _. cbv zeta.
  destruct (runWritable_reachable cs onCancel h)
    as [-> | [[v ->] | [[e ->] | (e & h' & [-> | ->])]]];
    cbv; repeat split.
Qed.

End WritableProperties.

Lemma Writable_invariants_witness :
  startsWithThunkCall [WCancel (RString "stop"); WSetValue (VNum 1)] = false /\
  WritableRequestState.loading
    (snd (runWritable parseErrorSample [WCancel (RString "stop"); WSetValue (VNum 1)]
            (WritableRequestState.new true 0)))
  = negb (WritableRequestState.completed
            (snd (runWritable parseErrorSample
                    [WCancel (RString "stop"); WSetValue (VNum 1)]
                    (WritableRequestState.new true 0)))).
Proof.
  split; [reflexivity|].
  exact (proj1 (Writable_invariants parseErrorSample
                  [WCancel (RString "stop"); WSetValue (VNum 1)] true 0 eq_refl)).
Defined.

Lemma Writable_handlers_follow_signals_witness :
  startsWithThunkCall [WSetError (VStr "e"); WCancel ROmitted] = false /\
  map eraseCallRef
    (thenCalls parseErrorSample true
       (WritableRequestState.request
          (snd (runWritable parseErrorSample [WSetError (VStr "e"); WCancel ROmitted]
                  (WritableRequestState.new false 0)))))
  = map eraseCallRef
      (settledThen
         (WritableRequestState.signals
            (snd (runWritable parseErrorSample [WSetError (VStr "e"); WCancel ROmitted]
                    (WritableRequestState.new false 0))))).
Proof.
  split; [reflexivity|].
  exact (proj1 (Writable_handlers_follow_signals parseErrorSample
                  [WSetError (VStr "e"); WCancel ROmitted] false 0 eq_refl)).
Defined.

(** ** The Async-Source variant, over any calls *)

Section AsyncProperties.
Variable parseError : JsValue -> Error.

(** On a latched state that is completed and whose subscriber is stopped,
    calls change nothing. *)
Lemma runLatched_done (ops : list Op) (s : AsyncRequestStateLatched.t) :
  AsyncRequestStateLatched.completed s = true ->
  Subscriber.isStopped (AsyncRequestStateLatched.sub s) = true ->
  runLatched parseError ops s = map (lateOutcome (observeLatched None s)) ops.
Proof.
  intros Hc Hs. induction ops as [|op ops IH]; simpl; [reflexivity|].
  destruct op as [ev | r]; simpl.
  - assert (E : AsyncRequestStateLatched.deliver parseError
                  AsyncRequestStateLatched.passive ev s = s).
    { unfold AsyncRequestStateLatched.deliver, AsyncRequestStateLatched.sub_next,
        AsyncRequestStateLatched.sub_error, AsyncRequestStateLatched.sub_complete.
      destruct ev; rewrite ?Hs; reflexivity. }
    rewrite E, IH. reflexivity.
  - unfold AsyncRequestStateLatched.cancel. rewrite Hc, IH. reflexivity.
Qed.

(** The first call on a new latched state gives [firstOutcome] and leaves
    the state completed, its subscriber stopped. *)
Lemma stepLatched_first (h : nat) (op : Op) :
  let r := stepLatched parseError op (AsyncRequestStateLatched.new h) in
  observeLatched (fst r) (snd r) = firstOutcome parseError h op /\
  AsyncRequestStateLatched.completed (snd r) = true /\
  Subscriber.isStopped (AsyncRequestStateLatched.sub (snd r)) = true.
Proof.
  destruct op as [[v | e | ] | [ | m | e | f]]; try solve [cbv; repeat split].
  cbv zeta.
  unfold stepLatched, AsyncRequestStateLatched.cancel, firstOutcome, fullError.
  cbn [AsyncRequestStateLatched.completed AsyncRequestStateLatched.new
       AsyncRequestStateLatched.heap AsyncRequestStateLatched.set_sub].
  destruct (f h) as [e h']. cbv. repeat split.
Qed.

Lemma runLatched_first_then_late (h : nat) (op : Op) (ops : list Op) :
  runLatched parseError (op :: ops) (AsyncRequestStateLatched.new h)
  = firstOutcome parseError h op
      :: map (lateOutcome (firstOutcome parseError h op)) ops.
Proof.
  pose proof (stepLatched_first h op) as H. cbv zeta in H.
  cbn [runLatched].
  destruct (stepLatched parseError op (AsyncRequestStateLatched.new h)) as [ret s].
  cbn [fst snd] in H. destruct H as (Ho & Hc & Hs).
  rewrite (runLatched_done ops s Hc Hs), Ho.
  f_equal. apply map_ext. intros op'. unfold lateOutcome.
  rewrite <- Ho. reflexivity.
Qed.

(** X5: on a new state of the latched implementation the first call,
    whether a delivery of the source or a [cancel] whose reason is not a
    function, decides the outcome; every later call leaves signals and
    channels as they are, and a later [cancel] returns [false]. *)
Theorem Latched_first_call_decides (h : nat) (op : Op) (ops : list Op) :
  startsWithThunk (op :: ops) = false ->
  runLatched parseError (op :: ops) (AsyncRequestStateLatched.new h)
  = firstOutcome parseError h op
      :: map (lateOutcome (firstOutcome parseError h op)) ops.
Proof. intros _. apply runLatched_first_then_late. Qed.

(** X6: the forwarding implementation does the same, as long as no call
    is made from within a callback. *)
Theorem Async_first_call_decides (h : nat) (op : Op) (ops : list Op) :
  startsWithThunk (op :: ops) = false ->
  runAsync parseError (op :: ops) (AsyncRequestState.new h)
  = firstOutcome parseError h op
      :: map (lateOutcome (firstOutcome parseError h op)) ops.
Proof.
  intros _.
  rewrite (runs_agree parseError (op :: ops) _ _ (sameState_new h)).
  apply runLatched_first_then_late.
Qed.

(** Every observation of a run has the signals and channels of the first
    outcome. *)
Lemma runLatched_observations (P : Signals -> list Notification -> Prop) (h : nat)
    (ops : list Op) :
  (forall op, P (obs_signals (firstOutcome parseError h op))
                (obs_request (firstOutcome parseError h op))) ->
  Forall (fun o => P (obs_signals o) (obs_request o))
    (runLatched parseError ops (AsyncRequestStateLatched.new h)).
Proof.
  intros HP. destruct ops as [|op ops]; [constructor|].
  rewrite runLatched_first_then_late. constructor; [apply HP|].
  apply Forall_forall. intros o Ho. apply in_map_iff in Ho.
  destruct Ho as (op' & <- & _). simpl. apply HP.
Qed.

(** X7: after every call of a run that does not start with a [cancel]
    whose reason is a function, on either implementation, a handler
    attached with [finally] is called at once exactly when the state is no
    longer loading, and a handler attached with [catch] exactly when the
    state has failed; the error they get has the class and message of the
    one in the [error] signal (it comes from a call of [parseError] of its
    own, so it is compared without its identity). *)
Theorem Async_finally_catch_follow_signals (h : nat) (ops : list Op) :
  startsWithThunk ops = false ->
  Forall (fun o =>
            map eraseCallRef (finallyCalls parseError (obs_request o))
            = map eraseCallRef (settledFinally (obs_signals o)) /\
            map eraseCallRef (catchCalls parseError (obs_request o))
            = map eraseCallRef (settledCatch (obs_signals o)))
    (runLatched parseError ops (AsyncRequestStateLatched.new h)) /\
  Forall (fun o =>
            map eraseCallRef (finallyCalls parseError (obs_request o))
            = map eraseCallRef (settledFinally (obs_signals o)) /\
            map eraseCallRef (catchCalls parseError (obs_request o))
            = map eraseCallRef (settledCatch (obs_signals o)))
    (runAsync parseError ops (AsyncRequestState.new h)).
Proof.
  intros _.
  rewrite (runs_agree parseError ops _ _ (sameState_new h)).
  assert (H : Forall (fun o =>
            map eraseCallRef (finallyCalls parseError (obs_request o))
            = map eraseCallRef (settledFinally (obs_signals o)) /\
            map eraseCallRef (catchCalls parseError (obs_request o))
            = map eraseCallRef (settledCatch (obs_signals o)))
    (runLatched parseError ops (AsyncRequestStateLatched.new h))).
  { apply (runLatched_observations
             (fun g rq => map eraseCallRef (finallyCalls parseError rq)
                          = map eraseCallRef (settledFinally g) /\
                          map eraseCallRef (catchCalls parseError rq)
                          = map eraseCallRef (settledCatch g))).
    intros [[v | e | ] | r]; cbv; split; reflexivity. }
  split; exact H.
Qed.

(** X8: after every call of such a run, a handler pair attached with
    [then(onValue, onError)] gets the result when the state has resolved
    and an error of the class and message of the one in the [error] signal
    when it has failed; when the source has completed without a value,
    [onError] is called with [parseError] of the [EmptyError] of
    [first()], although the [error] signal stays undefined and [failed]
    stays false. *)
Theorem Async_then_follows_signals_or_EmptyError (h : nat) (ops : list Op) :
  startsWithThunk ops = false ->
  Forall (fun o =>
            map eraseCallRef (thenCalls parseError true (obs_request o))
            = if completedWithoutValue (obs_request o)
              then [OnError (eraseRef (parseError (VErr EmptyError)))]
              else map eraseCallRef (settledThen (obs_signals o)))
    (runLatched parseError ops (AsyncRequestStateLatched.new h)) /\
  Forall (fun o =>
            map eraseCallRef (thenCalls parseError true (obs_request o))
            = if completedWithoutValue (obs_request o)
              then [OnError (eraseRef (parseError (VErr EmptyError)))]
              else map eraseCallRef (settledThen (obs_signals o)))
    (runAsync parseError ops (AsyncRequestState.new h)) /\
  obs_signals (firstOutcome parseError h (OpDeliver SrcComplete))
    = mkSignals VUndefined false None false.
Proof.
  intros _.
  rewrite (runs_agree parseError ops _ _ (sameState_new h)).
  assert (H : Forall (fun o =>
            map eraseCallRef (thenCalls parseError true (obs_request o))
            = if completedWithoutValue (obs_request o)
              then [OnError (eraseRef (parseError (VErr EmptyError)))]
              else map eraseCallRef (settledThen (obs_signals o)))
    (runLatched parseError ops (AsyncRequestStateLatched.new h))).
  { apply (runLatched_observations
             (fun g rq => map eraseCallRef (thenCalls parseError true rq)
                          = if completedWithoutValue rq
                            then [OnError (eraseRef (parseError (VErr EmptyError)))]
                            else map eraseCallRef (settledThen g))).
    intros [[v | e | ] | r]; cbv; reflexivity. }
  repeat split; exact H.
Qed.
End AsyncProperties.

Lemma Latched_first_call_decides_witness :
  startsWithThunk [OpCancel (RString "stop"); OpDeliver (SrcNext (VNum 42))] = false /\
  runLatched parseErrorSample [OpCancel (RString "stop"); OpDeliver (SrcNext (VNum 42))]
    (AsyncRequestStateLatched.new 0)
  = firstOutcome parseErrorSample 0 (OpCancel (RString "stop"))
      :: map (lateOutcome (firstOutcome parseErrorSample 0 (OpCancel (RString "stop"))))
           [OpDeliver (SrcNext (VNum 42))].
Proof.
  split; [reflexivity|].
  exact (Latched_first_call_decides parseErrorSample 0 (OpCancel (RString "stop"))
           [OpDeliver (SrcNext (VNum 42))] eq_refl).
Defined.

Lemma Async_first_call_decides_witness :
  startsWithThunk [OpDeliver (SrcNext (VNum 42)); OpCancel ROmitted] = false /\
  runAsync parseErrorSample [OpDeliver (SrcNext (VNum 42)); OpCancel ROmitted]
    (AsyncRequestState.new 0)
  = firstOutcome parseErrorSample 0 (OpDeliver (SrcNext (VNum 42)))
      :: map (lateOutcome (firstOutcome parseErrorSample 0 (OpDeliver (SrcNext (VNum 42)))))
           [OpCancel ROmitted].
Proof.
  split; [reflexivity|].
  exact (Async_first_call_decides parseErrorSample 0 (OpDeliver (SrcNext (VNum 42)))
           [OpCancel ROmitted] eq_refl).
Defined.

Lemma Async_finally_catch_follow_signals_witness :
  startsWithThunk [OpDeliver (SrcError (VStr "e")); OpCancel ROmitted] = false /\
  Forall (fun o =>
            map eraseCallRef (finallyCalls parseErrorSample (obs_request o))
            = map eraseCallRef (settledFinally (obs_signals o)) /\
            map eraseCallRef (catchCalls parseErrorSample (obs_request o))
            = map eraseCallRef (settledCatch (obs_signals o)))
    (runLatched parseErrorSample [OpDeliver (SrcError (VStr "e")); OpCancel ROmitted]
       (AsyncRequestStateLatched.new 0)).
Proof.
  split; [reflexivity|].
  exact (proj1 (Async_finally_catch_follow_signals parseErrorSample 0
                  [OpDeliver (SrcError (VStr "e")); OpCancel ROmitted] eq_refl)).
Defined.

Lemma Async_then_follows_signals_or_EmptyError_witness :
  startsWithThunk [OpDeliver SrcComplete; OpCancel (RString "late")] = false /\
  Forall (fun o =>
            map eraseCallRef (thenCalls parseErrorSample true (obs_request o))
            = if completedWithoutValue (obs_request o)
              then [OnError (eraseRef (parseErrorSample (VErr EmptyError)))]
              else map eraseCallRef (settledThen (obs_signals o)))
    (runLatched parseErrorSample [OpDeliver SrcComplete; OpCancel (RString "late")]
       (AsyncRequestStateLatched.new 0)).
Proof.
  split; [reflexivity|].
  exact (proj1 (Async_then_follows_signals_or_EmptyError parseErrorSample 0
                  [OpDeliver SrcComplete; OpCancel (RString "late")] eq_refl)).
Defined.

(** ** The synchronous variants *)

(** X9: the overrides of [then], [catch] and [finally] in the Immediate
    variant make the handler calls that the inherited methods make on
    [request$ = of(value)]. *)
Theorem Static_overrides_agree_with_contract (parseError : JsValue -> Error)
    (hasOnError : bool) (s : StaticRequestState.t) :
  StaticRequestState.thenCalls s
    = thenCalls parseError hasOnError (StaticRequestState.request s) /\
  StaticRequestState.catchCalls s
    = catchCalls parseError (StaticRequestState.request s) /\
  StaticRequestState.finallyCalls s
    = finallyCalls parseError (StaticRequestState.request s).
Proof. repeat split. Qed.

(** X10: [asPromise()] on the synchronous variants: an Immediate state
    fulfils with its value; an Error state rejects with the error that the
    factory returns for this subscription; an Empty state, and a
    Perpetual-Pending state after [cancel()], reject with the [EmptyError]
    of [first()]; a Perpetual-Pending state that was not cancelled stays
    pending. *)
Theorem asPromise_of_synchronous_variants (parseError : JsValue -> Error)
    (v : JsValue) (e : ErrorRequestState.t) :
  asPromise (StaticRequestState.thenCalls (StaticRequestState.mk v)) = Fulfilled v /\
  asPromise (thenCalls parseError true (fst (ErrorRequestState.subscribe e)))
    = Rejected (parseError
                  (VErr (fst (ErrorRequestState.getError e (ErrorRequestState.heap e))))) /\
  asPromise (thenCalls parseError true (EmptyRequestState.request EmptyRequestState.mk))
    = Rejected (parseError (VErr EmptyError)) /\
  asPromise (thenCalls parseError true
               (LoadingRequestState.request
                  (snd (LoadingRequestState.cancel LoadingRequestState.new))))
    = Rejected (parseError (VErr EmptyError)) /\
  asPromise (thenCalls parseError true
               (LoadingRequestState.request LoadingRequestState.new)) = Pending.
Proof.
  repeat split.
  unfold ErrorRequestState.subscribe.
  destruct (ErrorRequestState.getError e (ErrorRequestState.heap e)) as [x h'].
  reflexivity.
Qed.

(** X11: [cancel()] of the Perpetual-Pending variant returns [false] in
    every state, and calling it again leaves the state the first call
    made. *)
Theorem Loading_cancel_idempotent (s : LoadingRequestState.t) :
  fst (LoadingRequestState.cancel s) = false /\
  LoadingRequestState.cancel (snd (LoadingRequestState.cancel s))
    = (false, snd (LoadingRequestState.cancel s)).
Proof.
  destruct s as [[rp bf stp he te cl] ld].
  unfold LoadingRequestState.cancel, Subject.complete. simpl.
  destruct cl, stp; simpl; split; reflexivity.
Qed.

(** ** The trackers and their factory *)

(** After [set(req)] a [ValueRequestTracker] holds [req] in both of its
    signals: [current] is [req] and the derived signals are those of [req]
    in the store as it is when they are read, whatever the tracker held
    before. *)
Lemma ValueRequestTracker_set_redirects (st : Store) (tr : ValueRequestTracker.t)
    (req : nat) :
  let tr' := ValueRequestTracker.set req tr in
  ValueRequestTracker.current tr' = req /\
  ValueRequestTracker.loading st tr' = option_map sig_loading (signalsAt st req) /\
  ValueRequestTracker.error st tr' = option_map sig_error (signalsAt st req) /\
  ValueRequestTracker.failed st tr' = option_map sig_failed (signalsAt st req).
Proof. repeat split. Qed.

(** X13: with the facade of the code, [requestTracker()] and
    [requestTracker(request)] for a state of any variant throw a
    [TypeError], whatever the store: both build a [ValueRequestTracker],
    whose constructor calls [requestState.empty()]. *)
Theorem requestTracker_throws (o : RequestStateObj) (st : Store) :
  requestTracker requestState.compiled None st
    = Throw NTypeError "requestState.empty is not a function" /\
  requestTracker requestState.compiled (Some (fst (alloc o st))) (snd (alloc o st))
    = Throw NTypeError "requestState.empty is not a function".
Proof.
  split; [reflexivity|].
  unfold requestTracker, isValueRequestState.
  rewrite alloc_deref. reflexivity.
Qed.

(** X14: with a facade that has [empty], [reset()] of a
    [ValueRequestTracker] succeeds, adds two Empty states to the store and
    leaves the tracker holding the second in both signals: [current] is
    Empty and the derived signals read not loading, no error, not failed. *)
Theorem ValueRequestTracker_reset_with_empty (f : requestState.Facade)
    (tr : ValueRequestTracker.t) (st : Store) :
  f requestState.empty = true ->
  exists tr' st',
    ValueRequestTracker.reset f tr st = Ok (tr', st') /\
    List.length st' = 2 + List.length st /\
    coherent tr' /\
    option_map isEmptyState (deref st' (ValueRequestTracker.current tr')) = Some true /\
    ValueRequestTracker.loading st' tr' = Some false /\
    ValueRequestTracker.error st' tr' = Some None /\
    ValueRequestTracker.failed st' tr' = Some false.
Proof.
  intros Hf.
  unfold ValueRequestTracker.reset, RequestTracker.reset, requestState.call_empty.
  rewrite Hf. unfold requestState.emptyRequestState, alloc. simpl.
  eexists. eexists. split; [reflexivity|].
  unfold coherent, ValueRequestTracker.loading, ValueRequestTracker.error,
    ValueRequestTracker.failed, ValueRequestTracker.current,
    RequestTracker.loading, RequestTracker.error, RequestTracker.failed, deref.
  simpl.
  assert (E : nth_error ((st ++ [OEmpty EmptyRequestState.mk]) ++ [OEmpty EmptyRequestState.mk])%list
                (List.length (st ++ [OEmpty EmptyRequestState.mk])%list)
              = Some (OEmpty EmptyRequestState.mk)).
  { rewrite nth_error_app2 by lia. now rewrite Nat.sub_diag. }
  rewrite E. simpl.
  repeat split. rewrite !length_app. simpl. lia.
Qed.

Lemma ValueRequestTracker_reset_with_empty_witness :
  declaredFacade requestState.empty = true /\
  exists tr' st',
    ValueRequestTracker.reset declaredFacade
      (ValueRequestTracker.mk (RequestTracker.mk 0) 0) pendingStore = Ok (tr', st') /\
    List.length st' = 2 + List.length pendingStore /\
    coherent tr' /\
    option_map isEmptyState (deref st' (ValueRequestTracker.current tr')) = Some true /\
    ValueRequestTracker.loading st' tr' = Some false /\
    ValueRequestTracker.error st' tr' = Some None /\
    ValueRequestTracker.failed st' tr' = Some false.
Proof.
  split; [reflexivity|].
  apply (ValueRequestTracker_reset_with_empty declaredFacade
           (ValueRequestTracker.mk (RequestTracker.mk 0) 0) pendingStore).
  reflexivity.
Defined.

(** * Signal collections *)

(** ** Arrays *)

Section ArrayLemmas.
Variable A : Type.
Variable eq_dec : forall x y : A, {x = y} + {x <> y}.

Lemma clamp_nonneg (len i : Z) : (0 <= i)%Z -> JsArray.clamp len i = Z.min i len.
Proof.
  intros H. unfold JsArray.clamp.
  destruct (i <? 0)%Z eqn:E; [apply Z.ltb_lt in E; lia | reflexivity].
Qed.

Lemma clamp_neg (len i : Z) : (i < 0)%Z -> JsArray.clamp len i = Z.max (len + i) 0.
Proof.
  intros H. unfold JsArray.clamp.
  destruct (i <? 0)%Z eqn:E; [reflexivity | apply Z.ltb_ge in E; lia].
Qed.

Lemma slice_unfold (start : Z) (end_ : option Z) (l : list A) :
  JsArray.slice start end_ l
  = firstn (Z.to_nat (match end_ with
                      | None => Z.of_nat (List.length l)
                      | Some e => JsArray.clamp (Z.of_nat (List.length l)) e
                      end - JsArray.clamp (Z.of_nat (List.length l)) start))
      (skipn (Z.to_nat (JsArray.clamp (Z.of_nat (List.length l)) start)) l).
Proof. reflexivity. Qed.

(** [l.slice(d)] with [d >= 0] drops the first [d] elements. *)
Lemma slice_from (d : Z) (l : list A) :
  (0 <= d)%Z -> JsArray.slice d None l = skipn (Z.to_nat d) l.
Proof.
  intros Hd. rewrite slice_unfold, clamp_nonneg by assumption.
  destruct (Z.le_gt_cases d (Z.of_nat (List.length l))) as [H | H].
  - rewrite Z.min_l by lia.
    apply firstn_all2. rewrite length_skipn. lia.
  - rewrite Z.min_r by lia.
    rewrite Nat2Z.id, skipn_all. rewrite skipn_all2 by lia.
    now rewrite firstn_nil.
Qed.

(** [l.slice(0, c)] with [c >= 0] keeps the first [c] elements. *)
Lemma slice_to (c : Z) (l : list A) :
  (0 <= c)%Z -> JsArray.slice 0 (Some c) l = firstn (Z.to_nat c) l.
Proof.
  intros Hc. rewrite slice_unfold, !clamp_nonneg by lia.
  rewrite (Z.min_l 0) by lia. rewrite Z.sub_0_r.
  change (skipn (Z.to_nat 0) l) with l.
  destruct (Z.le_gt_cases c (Z.of_nat (List.length l))) as [H | H].
  - now rewrite Z.min_l by lia.
  - rewrite Z.min_r by lia. rewrite Nat2Z.id.
    rewrite firstn_all. symmetry. apply firstn_all2. lia.
Qed.

(** [l.slice(-c)] with [c > 0] keeps the last [c] elements. *)
Lemma slice_last (c : Z) (l : list A) :
  (0 < c)%Z ->
  JsArray.slice (- c) None l
  = skipn (Z.to_nat (Z.max (Z.of_nat (List.length l) - c) 0)) l.
Proof.
  intros Hc. rewrite slice_unfold, clamp_neg by lia.
  replace (Z.of_nat (List.length l) + - c)%Z with (Z.of_nat (List.length l) - c)%Z by lia.
  apply firstn_all2. rewrite length_skipn. lia.
Qed.

(** [l.slice(0, -c)] with [c > 0] drops the last [c] elements. *)
Lemma slice_but_last (c : Z) (l : list A) :
  (0 < c)%Z ->
  JsArray.slice 0 (Some (- c)%Z) l
  = firstn (Z.to_nat (Z.max (Z.of_nat (List.length l) - c) 0)) l.
Proof.
  intros Hc. rewrite slice_unfold, clamp_neg, clamp_nonneg by lia.
  rewrite (Z.min_l 0) by lia. rewrite Z.sub_0_r.
  change (skipn (Z.to_nat 0) l) with l.
  replace (Z.of_nat (List.length l) + - c)%Z with (Z.of_nat (List.length l) - c)%Z by lia.
  reflexivity.
Qed.
End ArrayLemmas.

(** ** The queue *)

Section QueueProperties.
Variable A : Type.
Variable eq_dec : forall x y : A, {x = y} + {x <> y}.

(** X15: [enqueue] appends the items; beyond [maxSize] it drops from the
    front, so the newest items are kept, and the queue ends with
    [max(0, min(length, maxSize))] items. *)
Theorem Queue_enqueue_keeps_newest (its : list A) (s : SignalQueue.t A) :
  let s' := SignalQueue.enqueue A its s in
  SignalQueue.maxSize A s' = SignalQueue.maxSize A s /\
  (exists dropped,
     (SignalQueue.items A s ++ its = dropped ++ SignalQueue.items A s')%list) /\
  SignalQueue.length A s'
  = match SignalQueue.maxSize A s with
    | None => (SignalQueue.length A s + Z.of_nat (List.length its))%Z
    | Some m =>
        Z.max 0 (Z.min (SignalQueue.length A s + Z.of_nat (List.length its)) m)
    end.
Proof.
  destruct s as [l ms]. unfold SignalQueue.enqueue, SignalQueue.length. simpl.
  assert (Hlen : Z.of_nat (List.length (l ++ its)%list)
                 = (Z.of_nat (List.length l) + Z.of_nat (List.length its))%Z)
    by (rewrite length_app; lia).
  destruct ms as [m|]; simpl.
  - destruct (m <? Z.of_nat (List.length (l ++ its)%list))%Z eqn:E; simpl.
    + apply Z.ltb_lt in E.
      rewrite slice_from by lia.
      split; [reflexivity|]. split.
      * exists (firstn (Z.to_nat (Z.of_nat (List.length (l ++ its)%list) - m)) (l ++ its)%list).
        now rewrite firstn_skipn.
      * rewrite length_skipn. lia.
    + apply Z.ltb_ge in E.
      split; [reflexivity|]. split; [now exists []|]. lia.
  - split; [reflexivity|]. split; [now exists []|]. lia.
Qed.

(** X16: [addToFront] prepends the items; beyond [maxSize] it drops from
    the back, so the front of the new list is kept. *)
Theorem Queue_addToFront_keeps_front (its : list A) (s : SignalQueue.t A) :
  let s' := SignalQueue.addToFront A its s in
  SignalQueue.maxSize A s' = SignalQueue.maxSize A s /\
  (exists dropped,
     (its ++ SignalQueue.items A s = SignalQueue.items A s' ++ dropped)%list) /\
  SignalQueue.length A s'
  = match SignalQueue.maxSize A s with
    | None => (SignalQueue.length A s + Z.of_nat (List.length its))%Z
    | Some m =>
        Z.max 0 (Z.min (SignalQueue.length A s + Z.of_nat (List.length its)) m)
    end.
Proof.
  destruct s as [l ms]. unfold SignalQueue.addToFront, SignalQueue.length. simpl.
  assert (Hlen : Z.of_nat (List.length (its ++ l)%list)
                 = (Z.of_nat (List.length l) + Z.of_nat (List.length its))%Z)
    by (rewrite length_app; lia).
  destruct ms as [m|]; simpl.
  - destruct (m <? Z.of_nat (List.length (its ++ l)%list))%Z eqn:E; simpl.
    + apply Z.ltb_lt in E.
      rewrite slice_but_last by lia.
      split; [reflexivity|]. split.
      * eexists. symmetry. apply firstn_skipn.
      * rewrite length_firstn. lia.
    + apply Z.ltb_ge in E.
      split; [reflexivity|]. split; [exists []; now rewrite app_nil_r|]. lia.
  - split; [reflexivity|]. split; [exists []; now rewrite app_nil_r|]. lia.
Qed.

(** X17: [dequeue(count)] splits the queue: what it returns, followed by
    what it leaves, is the queue as it was, and it returns
    [max(0, min(count, length))] items. *)
Theorem Queue_dequeueCount_splits (count : Z) (s : SignalQueue.t A) :
  let r := SignalQueue.dequeueCount A count s in
  (fst r ++ SignalQueue.items A (snd r))%list = SignalQueue.items A s /\
  Z.of_nat (List.length (fst r)) = Z.max 0 (Z.min count (SignalQueue.length A s)) /\
  SignalQueue.maxSize A (snd r) = SignalQueue.maxSize A s.
Proof.
  destruct s as [l ms]. unfold SignalQueue.dequeueCount, SignalQueue.length. simpl.
  destruct (count <? 1)%Z eqn:E; simpl.
  - apply Z.ltb_lt in E. repeat split. lia.
  - apply Z.ltb_ge in E.
    destruct (Z.of_nat (List.length l) =? 0)%Z eqn:E0; simpl.
    + apply Z.eqb_eq in E0. repeat split. lia.
    + rewrite slice_to, slice_from by lia.
      repeat split; [apply firstn_skipn|]. rewrite length_firstn. lia.
Qed.

(** X18: [removeFromBack(count)] splits the queue at the other end: what
    it leaves, followed by what it returns, is the queue as it was. *)
Theorem Queue_removeFromBackCount_splits (count : Z) (s : SignalQueue.t A) :
  let r := SignalQueue.removeFromBackCount A count s in
  (SignalQueue.items A (snd r) ++ fst r)%list = SignalQueue.items A s /\
  Z.of_nat (List.length (fst r)) = Z.max 0 (Z.min count (SignalQueue.length A s)) /\
  SignalQueue.maxSize A (snd r) = SignalQueue.maxSize A s.
Proof.
  destruct s as [l ms]. unfold SignalQueue.removeFromBackCount, SignalQueue.length. simpl.
  destruct (count <? 1)%Z eqn:E; simpl.
  - apply Z.ltb_lt in E. repeat split; [apply app_nil_r | lia].
  - apply Z.ltb_ge in E.
    destruct (Z.of_nat (List.length l) =? 0)%Z eqn:E0; simpl.
    + apply Z.eqb_eq in E0. repeat split; [apply app_nil_r | lia].
    + replace (count * -1)%Z with (- count)%Z by lia.
      rewrite slice_last, slice_but_last by lia.
      repeat split; [apply firstn_skipn|]. rewrite length_skipn. lia.
Qed.

Lemma includes_true (x : A) (l : list A) :
  In x l -> JsArray.includes eq_dec x l = true.
Proof.
  intros H. unfold JsArray.includes.
  destruct (in_dec eq_dec x l); [reflexivity | contradiction].
Qed.

Lemma includes_false (x : A) (l : list A) :
  ~ In x l -> JsArray.includes eq_dec x l = false.
Proof.
  intros H. unfold JsArray.includes.
  destruct (in_dec eq_dec x l); [contradiction | reflexivity].
Qed.

(** [indexOf] finds an item exactly when it occurs, and removing the
    element at that index removes the first occurrence. *)
Lemma indexOf_In (x : A) (l : list A) :
  if (JsArray.indexOf eq_dec x l <? 0)%Z
  then ~ In x l /\ removeFirst A eq_dec x l = l
  else In x l /\
       JsArray.splice1 (JsArray.indexOf eq_dec x l) l = removeFirst A eq_dec x l.
Proof.
  induction l as [|y l IH].
  - simpl. split; [tauto | reflexivity].
  - cbn [JsArray.indexOf removeFirst].
    destruct (eq_dec y x) as [-> | Hne].
    + simpl. split; [now left | reflexivity].
    + destruct (JsArray.indexOf eq_dec x l <? 0)%Z eqn:E.
      * simpl. destruct IH as [Hi Hr]. split.
        -- intros [Hy | Hl]; [contradiction | contradiction].
        -- now rewrite Hr.
      * apply Z.ltb_ge in E. destruct IH as [Hi Hr].
        replace (JsArray.indexOf eq_dec x l + 1 <? 0)%Z with false
          by (symmetry; apply Z.ltb_ge; lia).
        split; [now right|].
        unfold JsArray.splice1 in *.
        replace (Z.to_nat (JsArray.indexOf eq_dec x l + 1))
          with (S (Z.to_nat (JsArray.indexOf eq_dec x l))) by lia.
        simpl. now rewrite <- Hr.
Qed.

Lemma indexOf_splice1 (x : A) (l : list A) :
  if (JsArray.indexOf eq_dec x l <? 0)%Z
  then JsArray.includes eq_dec x l = false /\ removeFirst A eq_dec x l = l
  else JsArray.includes eq_dec x l = true /\
       JsArray.splice1 (JsArray.indexOf eq_dec x l) l = removeFirst A eq_dec x l.
Proof.
  pose proof (indexOf_In x l) as H.
  destruct (JsArray.indexOf eq_dec x l <? 0)%Z; destruct H as [Hi Hr]; split;
    try assumption; [now apply includes_false | now apply includes_true].
Qed.

(** X19: [removeItem(item)] returns what [contains(item)] returns and
    removes the first occurrence of the item, leaving the others in
    order. *)
Theorem Queue_removeItem_removes_first (x : A) (s : SignalQueue.t A) :
  SignalQueue.removeItem A eq_dec x s
  = (SignalQueue.contains A eq_dec x s,
     SignalQueue.mk A (removeFirst A eq_dec x (SignalQueue.items A s))
       (SignalQueue.maxSize A s)).
Proof.
  destruct s as [l ms]. unfold SignalQueue.removeItem, SignalQueue.contains. simpl.
  pose proof (indexOf_splice1 x l) as H.
  destruct (JsArray.indexOf eq_dec x l <? 0)%Z; destruct H as [-> ->]; reflexivity.
Qed.

(** X20: [dequeue()] returns the first item and leaves the rest;
    [removeFromBack()] returns the last item and leaves the others; on an
    empty queue both return [undefined] and change nothing. *)
Theorem Queue_dequeue_and_removeFromBack (s : SignalQueue.t A) :
  SignalQueue.dequeue A s
  = (hd_error (SignalQueue.items A s),
     SignalQueue.mk A (tl (SignalQueue.items A s)) (SignalQueue.maxSize A s)) /\
  SignalQueue.removeFromBack A s
  = (hd_error (rev (SignalQueue.items A s)),
     SignalQueue.mk A (rev (tl (rev (SignalQueue.items A s)))) (SignalQueue.maxSize A s)).
Proof.
  destruct s as [l ms]. unfold SignalQueue.dequeue, SignalQueue.removeFromBack,
    SignalQueue.length. simpl. split.
  - destruct l as [|x l]; [reflexivity|].
    replace (Z.of_nat (List.length (x :: l)) =? 0)%Z with false
      by (symmetry; apply Z.eqb_neq; simpl; lia).
    rewrite slice_from by lia. reflexivity.
  - destruct (rev l) as [|x r] eqn:Hr.
    + assert (l = []) by (rewrite <- (rev_involutive l), Hr; reflexivity).
      subst l. reflexivity.
    + assert (Hl : l = (rev r ++ [x])%list)
        by (rewrite <- (rev_involutive l), Hr; reflexivity).
      subst l. clear Hr. simpl.
      replace (Z.of_nat (List.length (rev r ++ [x])%list) =? 0)%Z with false
        by (symmetry; apply Z.eqb_neq; rewrite length_app; simpl; lia).
      rewrite (slice_but_last A 1) by lia.
      f_equal.
      * unfold JsArray.at_. simpl.
        rewrite length_app. simpl.
        replace (Z.of_nat (List.length (rev r) + 1) + -1)%Z
          with (Z.of_nat (List.length (rev r))) by lia.
        replace ((Z.of_nat (List.length (rev r)) <? 0)
                 || (Z.of_nat (List.length (rev r) + 1) <=? Z.of_nat (List.length (rev r))))%Z
          with false.
        -- rewrite Nat2Z.id, nth_error_app2 by lia. now rewrite Nat.sub_diag.
        -- symmetry. apply orb_false_iff. split; [apply Z.ltb_ge | apply Z.leb_gt]; lia.
      * f_equal. rewrite length_app. simpl.
        replace (Z.to_nat (Z.max (Z.of_nat (List.length (rev r) + 1) - 1) 0))
          with (List.length (rev r)) by lia.
        rewrite firstn_app, Nat.sub_diag. simpl.
        now rewrite firstn_all, app_nil_r.
Qed.

(** X21: [setMaxSize(size)] records the new bound and, when the queue is
    longer, drops from the front down to [max(0, size)] items. *)
Theorem Queue_setMaxSize_trims_front (size : option Z) (s : SignalQueue.t A) :
  let s' := SignalQueue.setMaxSize A size s in
  SignalQueue.maxSize A s' = size /\
  (exists dropped, SignalQueue.items A s = (dropped ++ SignalQueue.items A s')%list) /\
  SignalQueue.length A s'
  = match size with
    | None => SignalQueue.length A s
    | Some m => Z.max 0 (Z.min (SignalQueue.length A s) m)
    end.
Proof.
  destruct s as [l ms]. unfold SignalQueue.setMaxSize, SignalQueue.length. simpl.
  destruct size as [m|]; simpl.
  - destruct (Z.of_nat (List.length l) <=? m)%Z eqn:E; simpl.
    + apply Z.leb_le in E. split; [reflexivity|]. split; [now exists []|]. lia.
    + apply Z.leb_gt in E. rewrite slice_from by lia.
      split; [reflexivity|]. split.
      * eexists. symmetry. apply firstn_skipn.
      * rewrite length_skipn. lia.
  - split; [reflexivity|]. split; [now exists []|]. reflexivity.
Qed.

Lemma removeFirst_length (x : A) (l : list A) :
  List.length (removeFirst A eq_dec x l) <= List.length l.
Proof.
  induction l as [|y l IH]; simpl; [lia|].
  destruct (eq_dec y x); simpl; lia.
Qed.

(** A call that only removes items keeps the bound. *)
Lemma withinBound_shrink (s s' : SignalQueue.t A) :
  SignalQueue.maxSize A s' = SignalQueue.maxSize A s ->
  List.length (SignalQueue.items A s') <= List.length (SignalQueue.items A s) ->
  withinBound A s -> withinBound A s'.
Proof.
  unfold withinBound, SignalQueue.length. intros -> Hl.
  destruct (SignalQueue.maxSize A s); [lia | trivial].
Qed.

Lemma stepQueue_withinBound (c : QueueCall A) (s : SignalQueue.t A) :
  withinBound A s -> withinBound A (stepQueue A eq_dec c s).
Proof.
  intros Hb. destruct c as [x | | n | | n | its | its | | size];
    cbn [stepQueue].
  - apply (withinBound_shrink s); [| |exact Hb];
      unfold SignalQueue.removeItem;
      destruct (JsArray.indexOf eq_dec x (SignalQueue.items A s) <? 0)%Z eqn:E;
      simpl; try reflexivity; try lia.
    pose proof (indexOf_In x (SignalQueue.items A s)) as H. rewrite E in H.
    destruct H as [_ ->]. apply removeFirst_length.
  - apply (withinBound_shrink s); [| |exact Hb];
      unfold SignalQueue.dequeue;
      destruct (SignalQueue.length A s =? 0)%Z; simpl; try reflexivity; try lia.
    rewrite slice_from by lia. rewrite length_skipn. lia.
  - apply (withinBound_shrink s); [| |exact Hb];
      unfold SignalQueue.dequeueCount;
      destruct (n <? 1)%Z eqn:E; simpl; try reflexivity; try lia;
      destruct (SignalQueue.length A s =? 0)%Z; simpl; try reflexivity; try lia.
    apply Z.ltb_ge in E. rewrite slice_from by lia. rewrite length_skipn. lia.
  - apply (withinBound_shrink s); [| |exact Hb];
      unfold SignalQueue.removeFromBack;
      destruct (SignalQueue.length A s =? 0)%Z; simpl; try reflexivity; try lia.
    rewrite (slice_but_last A 1) by lia. rewrite length_firstn. lia.
  - apply (withinBound_shrink s); [| |exact Hb];
      unfold SignalQueue.removeFromBackCount;
      destruct (n <? 1)%Z eqn:E; simpl; try reflexivity; try lia;
      destruct (SignalQueue.length A s =? 0)%Z; simpl; try reflexivity; try lia.
    apply Z.ltb_ge in E. replace (n * -1)%Z with (- n)%Z by lia.
    rewrite slice_but_last by lia. rewrite length_firstn. lia.
  - clear Hb. destruct s as [l ms].
    unfold withinBound, SignalQueue.enqueue, SignalQueue.length. simpl.
    destruct ms as [m|]; simpl; [|trivial].
    destruct (m <? Z.of_nat (List.length (l ++ its)%list))%Z eqn:E; simpl.
    + apply Z.ltb_lt in E. rewrite slice_from by lia. rewrite length_skipn. lia.
    + apply Z.ltb_ge in E. lia.
  - clear Hb. destruct s as [l ms].
    unfold withinBound, SignalQueue.addToFront, SignalQueue.length. simpl.
    destruct ms as [m|]; simpl; [|trivial].
    destruct (m <? Z.of_nat (List.length (its ++ l)%list))%Z eqn:E; simpl.
    + apply Z.ltb_lt in E. rewrite slice_but_last by lia. rewrite length_firstn. lia.
    + apply Z.ltb_ge in E. lia.
  - unfold withinBound, SignalQueue.clear, SignalQueue.length. simpl.
    destruct (SignalQueue.maxSize A s); [lia | trivial].
  - clear Hb. destruct s as [l ms].
    unfold withinBound, SignalQueue.setMaxSize, SignalQueue.length. simpl.
    destruct size as [m|]; simpl; [|trivial].
    destruct (Z.of_nat (List.length l) <=? m)%Z eqn:E; simpl.
    + apply Z.leb_le in E. lia.
    + apply Z.leb_gt in E. rewrite slice_from by lia. rewrite length_skipn. lia.
Qed.

(** X22: whatever is done to a queue created with or without a size, it
    never holds more than [max(0, maxSize)] items, [maxSize] being the
    bound in force at that time. *)
Theorem Queue_never_exceeds_maxSize (size : option Z) (cs : list (QueueCall A)) :
  withinBound A (runQueue A eq_dec cs (SignalQueue.new A size)).
Proof.
  unfold runQueue.
  assert (H0 : withinBound A (SignalQueue.new A size)).
  { unfold withinBound, SignalQueue.new, SignalQueue.length. simpl.
    destruct size; [lia | trivial]. }
  revert H0. generalize (SignalQueue.new A size).
  induction cs as [|c cs IH]; intros s Hs; simpl; [exact Hs|].
  apply IH. now apply stepQueue_withinBound.
Qed.
End QueueProperties.

(** ** The stack *)

Section StackProperties.
Variable A : Type.
Variable eq_dec : forall x y : A, {x = y} + {x <> y}.

Lemma at_last (l : list A) (x : A) : JsArray.at_ (-1) (l ++ [x])%list = Some x.
Proof.
  unfold JsArray.at_. cbn [Z.leb Z.compare]. rewrite length_app. simpl.
  replace ((Z.of_nat (List.length l + 1) + -1 <? 0)
           || (Z.of_nat (List.length l + 1) <=? Z.of_nat (List.length l + 1) + -1))%Z
    with false
    by (symmetry; apply orb_false_iff; split; [apply Z.ltb_ge | apply Z.leb_gt]; lia).
  replace (Z.to_nat (Z.of_nat (List.length l + 1) + -1)) with (List.length l) by lia.
  rewrite nth_error_app2 by lia. now rewrite Nat.sub_diag.
Qed.

(** X23: what [push] puts on the stack, [pop] takes back: [pop()] after
    [push(x)] returns [x], [pop(n)] after a [push] of [n] items returns
    these items, bottom to top, and both leave the stack as it was before
    the [push]. *)
Theorem Stack_push_pop (x : A) (its : list A) (s : SignalStack.t A) :
  SignalStack.top A (SignalStack.push A [x] s) = Some x /\
  SignalStack.pop A (SignalStack.push A [x] s) = (Some x, s) /\
  SignalStack.popCount A (Z.of_nat (List.length its)) (SignalStack.push A its s)
  = (its, s).
Proof.
  destruct s as [l]. unfold SignalStack.top, SignalStack.pop, SignalStack.popCount,
    SignalStack.push, SignalStack.length. cbn [SignalStack.items].
  split; [apply at_last|]. split.
  - replace (Z.of_nat (List.length (l ++ [x])%list) =? 0)%Z with false
      by (symmetry; apply Z.eqb_neq; rewrite length_app; simpl; lia).
    rewrite at_last, (slice_but_last A 1) by lia.
    rewrite length_app. simpl.
    replace (Z.to_nat (Z.max (Z.of_nat (List.length l + 1) - 1) 0))
      with (List.length l) by lia.
    rewrite firstn_app, Nat.sub_diag, firstn_all. simpl. now rewrite app_nil_r.
  - destruct its as [|y its].
    + simpl. now rewrite app_nil_r.
    + replace (Z.of_nat (List.length (y :: its)) <? 1)%Z with false
        by (symmetry; apply Z.ltb_ge; simpl; lia).
      replace (Z.of_nat (List.length (l ++ y :: its)%list) =? 0)%Z with false
        by (symmetry; apply Z.eqb_neq; rewrite length_app; simpl; lia).
      replace (Z.of_nat (List.length (y :: its)) * -1)%Z
        with (- Z.of_nat (List.length (y :: its)))%Z by lia.
      rewrite slice_last, slice_but_last by (simpl; lia).
      rewrite length_app.
      replace (Z.to_nat (Z.max (Z.of_nat (List.length l + List.length (y :: its))
                                - Z.of_nat (List.length (y :: its))) 0))
        with (List.length l) by lia.
      rewrite skipn_app, firstn_app, Nat.sub_diag, firstn_all, skipn_all. simpl.
      now rewrite app_nil_r.
Qed.

(** X24: what [addToBottom] puts under the stack, [removeFromBottom] takes
    back, and both leave the stack as it was before. *)
Theorem Stack_addToBottom_removeFromBottom (x : A) (its : list A)
    (s : SignalStack.t A) :
  SignalStack.bottom A (SignalStack.addToBottom A [x] s) = Some x /\
  SignalStack.removeFromBottom A (SignalStack.addToBottom A [x] s) = (Some x, s) /\
  SignalStack.removeFromBottomCount A (Z.of_nat (List.length its))
    (SignalStack.addToBottom A its s) = (its, s).
Proof.
  destruct s as [l]. unfold SignalStack.bottom, SignalStack.removeFromBottom,
    SignalStack.removeFromBottomCount, SignalStack.addToBottom, SignalStack.length.
  cbn [SignalStack.items].
  assert (Hat : JsArray.at_ 0 ([x] ++ l)%list = Some x).
  { unfold JsArray.at_. simpl.
    replace (Z.pos (Pos.of_succ_nat (List.length l)) <=? 0)%Z with false
      by (symmetry; apply Z.leb_gt; lia).
    reflexivity. }
  split; [exact Hat|]. split.
  - replace (Z.of_nat (List.length ([x] ++ l)%list) =? 0)%Z with false
      by (symmetry; apply Z.eqb_neq; simpl; lia).
    rewrite Hat, slice_from by lia. reflexivity.
  - destruct its as [|y its]; [reflexivity|].
    replace (Z.of_nat (List.length (y :: its)) <? 1)%Z with false
      by (symmetry; apply Z.ltb_ge; simpl; lia).
    replace (Z.of_nat (List.length ((y :: its) ++ l)%list) =? 0)%Z with false
      by (symmetry; apply Z.eqb_neq; simpl; lia).
    rewrite slice_to, slice_from by lia. rewrite Nat2Z.id.
    rewrite firstn_app, skipn_app, Nat.sub_diag, firstn_all, skipn_all. simpl.
    now rewrite app_nil_r.
Qed.

(** X25: [removeItem(item)] of the stack returns what [contains(item)]
    returns and removes the occurrence that is nearest to the bottom. *)
Theorem Stack_removeItem_removes_first (x : A) (s : SignalStack.t A) :
  SignalStack.removeItem A eq_dec x s
  = (SignalStack.contains A eq_dec x s,
     SignalStack.mk A (removeFirst A eq_dec x (SignalStack.items A s))).
Proof.
  destruct s as [l]. unfold SignalStack.removeItem, SignalStack.contains. simpl.
  pose proof (indexOf_splice1 A eq_dec x l) as H.
  destruct (JsArray.indexOf eq_dec x l <? 0)%Z; destruct H as [-> ->]; reflexivity.
Qed.
End StackProperties.

(** ** The set *)

Section SetProperties.
Variable A : Type.
Variable eq_dec : forall x y : A, {x = y} + {x <> y}.

Lemma JsSet_has_true (x : A) (l : list A) : In x l -> JsSet.has A eq_dec x l = true.
Proof.
  intros H. unfold JsSet.has. destruct (in_dec eq_dec x l); [reflexivity | contradiction].
Qed.

Lemma JsSet_has_false (x : A) (l : list A) : ~ In x l -> JsSet.has A eq_dec x l = false.
Proof.
  intros H. unfold JsSet.has. destruct (in_dec eq_dec x l); [contradiction | reflexivity].
Qed.

Lemma JsSet_has_In (x : A) (l : list A) : JsSet.has A eq_dec x l = true <-> In x l.
Proof.
  unfold JsSet.has. destruct (in_dec eq_dec x l); split; intros; try assumption;
    try reflexivity; try discriminate; contradiction.
Qed.

Lemma JsSet_In_add (x y : A) (l : list A) :
  In y (JsSet.add A eq_dec x l) <-> In y l \/ y = x.
Proof.
  unfold JsSet.add. destruct (in_dec eq_dec x l) as [Hx | Hx].
  - split; [now left | intros [H | ->]; assumption].
  - rewrite in_app_iff. simpl. intuition (subst; auto).
Qed.

Lemma JsSet_In_delete (x y : A) (l : list A) :
  In y (JsSet.delete A eq_dec x l) <-> In y l /\ y <> x.
Proof.
  unfold JsSet.delete. split.
  - apply in_remove.
  - intros [H1 H2]. now apply in_in_remove.
Qed.

Lemma JsSet_In_fold_add (y : A) (vs acc : list A) :
  In y (fold_left (fun set v => JsSet.add A eq_dec v set) vs acc) <-> In y acc \/ In y vs.
Proof.
  revert acc. induction vs as [|v vs IH]; intros acc; simpl.
  - tauto.
  - rewrite IH, JsSet_In_add. split; intros H; intuition (subst; auto).
Qed.

Lemma JsSet_In_ofList (y : A) (vs : list A) :
  In y (JsSet.ofList A eq_dec vs) <-> In y vs.
Proof.
  unfold JsSet.ofList. rewrite JsSet_In_fold_add. simpl. tauto.
Qed.

Lemma forallb_truthy (vs : list A) : forallb (fun _ => signalTruthy) vs = true.
Proof. induction vs as [|v vs IH]; simpl; [reflexivity | exact IH]. Qed.

(** X26: [set(values)] replaces the content exactly when [values] has
    another length than the set has elements; when the lengths are equal
    it returns [false] and keeps the content, whatever the values are. *)
Theorem SignalSet_set_compares_lengths_only (values : list A) (s : SignalSet.t A) :
  SignalSet.set A eq_dec values s
  = if (List.length values =? SignalSet.size A s)%nat
    then (false, s)
    else (true, SignalSet.mk A (JsSet.ofList A eq_dec values)).
Proof.
  unfold SignalSet.set. rewrite forallb_truthy.
  unfold signalTruthy. simpl. rewrite !andb_false_r, andb_true_r. reflexivity.
Qed.

(** X27: [toggle(value, state)] gives [value] the membership [state], or
    the opposite of the one it has when [state] is omitted, and leaves the
    other elements alone; it returns the new membership when it changed and
    [undefined] when it did not. *)
Theorem SignalSet_toggle_membership (x y : A) (state : option bool) (s : SignalSet.t A) :
  let r := SignalSet.toggle A eq_dec x state s in
  SignalSet.hasNow A eq_dec y (snd r)
  = (if eq_dec y x
     then match state with
          | Some b => b
          | None => negb (SignalSet.hasNow A eq_dec x s)
          end
     else SignalSet.hasNow A eq_dec y s) /\
  fst r = if Bool.eqb (SignalSet.hasNow A eq_dec x (snd r)) (SignalSet.hasNow A eq_dec x s)
          then None
          else Some (SignalSet.hasNow A eq_dec x (snd r)).
Proof.
  destruct s as [l]. unfold SignalSet.toggle, SignalSet.hasNow. cbn [SignalSet.value].
  assert (Hadd : JsSet.has A eq_dec x (JsSet.add A eq_dec x l) = true).
  { apply JsSet_has_true, JsSet_In_add. now right. }
  assert (Hdel : JsSet.has A eq_dec x (JsSet.delete A eq_dec x l) = false).
  { apply JsSet_has_false. rewrite JsSet_In_delete. tauto. }
  assert (Hadd' : y <> x ->
                  JsSet.has A eq_dec y (JsSet.add A eq_dec x l) = JsSet.has A eq_dec y l).
  { intros Hy. destruct (in_dec eq_dec y l) as [Hi | Hi].
    - rewrite (JsSet_has_true y l Hi). apply JsSet_has_true, JsSet_In_add. now left.
    - rewrite (JsSet_has_false y l Hi). apply JsSet_has_false.
      rewrite JsSet_In_add. tauto. }
  assert (Hdel' : y <> x ->
                  JsSet.has A eq_dec y (JsSet.delete A eq_dec x l) = JsSet.has A eq_dec y l).
  { intros Hy. destruct (in_dec eq_dec y l) as [Hi | Hi].
    - rewrite (JsSet_has_true y l Hi). apply JsSet_has_true, JsSet_In_delete. tauto.
    - rewrite (JsSet_has_false y l Hi). apply JsSet_has_false.
      rewrite JsSet_In_delete. tauto. }
  destruct (eq_dec y x) as [-> | Hy];
    destruct (JsSet.has A eq_dec x l) eqn:Hx;
    destruct state as [[|]|]; cbn [fst snd SignalSet.value];
    rewrite ?Hx, ?Hdel, ?Hadd, ?(Hadd' Hy), ?(Hdel' Hy); split; reflexivity.
Qed.

Lemma filter_remove (p : A -> bool) (x : A) (l : list A) :
  List.filter p (remove eq_dec x l)
  = List.filter (fun y => p y && (if eq_dec x y then false else true)) l.
Proof.
  induction l as [|y l IH]; simpl; [reflexivity|].
  destruct (eq_dec x y) as [-> | Hne]; simpl.
  - rewrite andb_false_r. exact IH.
  - rewrite andb_true_r. destruct (p y); [now rewrite IH | exact IH].
Qed.

Lemma filter_same_length (p : A -> bool) (l : list A) :
  List.length (List.filter p l) = List.length l -> List.filter p l = l.
Proof.
  induction l as [|y l IH]; simpl; [reflexivity|].
  destruct (p y); simpl; intros H.
  - f_equal. apply IH. lia.
  - pose proof (filter_length_le p l). lia.
Qed.

(** The loop of [filter]: removing from [acc] the values of [vs] that are
    not in the whitelist. *)
Lemma filter_loop (w vs acc : list A) :
  fold_left (fun set v => if JsSet.has A eq_dec v w then set
                          else JsSet.delete A eq_dec v set) vs acc
  = List.filter (fun y => JsSet.has A eq_dec y w || negb (JsSet.has A eq_dec y vs)) acc.
Proof.
  revert acc. induction vs as [|v vs IH]; intros acc; cbn [fold_left].
  - rewrite <- (filter_ext (fun _ => true)).
    + induction acc as [|a acc IHa]; simpl; [reflexivity | now f_equal].
    + intros y. rewrite (JsSet_has_false y []) by (intros []). now rewrite orb_true_r.
  - destruct (JsSet.has A eq_dec v w) eqn:Hv; rewrite IH.
    + apply filter_ext. intros y.
      destruct (JsSet.has A eq_dec y w) eqn:Hy; [reflexivity|]. simpl.
      assert (Hne : v <> y) by (intros ->; congruence).
      destruct (in_dec eq_dec y vs) as [Hi | Hi].
      * rewrite (JsSet_has_true y vs Hi), JsSet_has_true; [reflexivity | now right].
      * rewrite (JsSet_has_false y vs Hi), JsSet_has_false; [reflexivity|].
        intros [H | H]; contradiction.
    + unfold JsSet.delete. rewrite filter_remove. apply filter_ext. intros y.
      destruct (eq_dec v y) as [-> | Hne].
      * rewrite andb_false_r, Hv. simpl.
        rewrite JsSet_has_true; [reflexivity | now left].
      * rewrite andb_true_r.
        destruct (JsSet.has A eq_dec y w); [reflexivity|]. simpl.
        destruct (in_dec eq_dec y vs) as [Hi | Hi].
        -- rewrite (JsSet_has_true y vs Hi), JsSet_has_true; [reflexivity | now right].
        -- rewrite (JsSet_has_false y vs Hi), JsSet_has_false; [reflexivity|].
           intros [H | H]; contradiction.
Qed.

(** X28: [filter(whitelist)] keeps exactly the elements that are in the
    whitelist, in their order; an empty or omitted whitelist empties the
    set; the result tells whether an element was removed. *)
Theorem SignalSet_filter_keeps_whitelisted (whitelist : option (list A))
    (s : SignalSet.t A) :
  let w := match whitelist with Some w => w | None => [] end in
  let kept := List.filter (fun y => JsSet.has A eq_dec y w) (SignalSet.value A s) in
  SignalSet.filter A eq_dec whitelist s
  = (negb (List.length kept =? SignalSet.size A s)%nat, SignalSet.mk A kept).
Proof.
  destruct s as [l]. cbv zeta.
  assert (Hnone : List.filter (fun y => JsSet.has A eq_dec y []) l = []).
  { induction l as [|a l IH]; simpl; [reflexivity | exact IH]. }
  assert (Hclear : SignalSet.clear A (SignalSet.mk A l)
                   = (negb (0 =? List.length l)%nat, SignalSet.mk A [])).
  { unfold SignalSet.clear, SignalSet.size. simpl.
    destruct l as [|a l]; reflexivity. }
  unfold SignalSet.filter, SignalSet.size. cbn [SignalSet.value].
  destruct whitelist as [w|]; [|now rewrite Hnone, Hclear].
  destruct w as [|b w]; [now rewrite Hnone, Hclear|].
  cbn [List.length Nat.eqb].
  rewrite filter_loop.
  assert (E : List.filter (fun y => JsSet.has A eq_dec y (JsSet.ofList A eq_dec (b :: w))
                                    || negb (JsSet.has A eq_dec y l)) l
              = List.filter (fun y => JsSet.has A eq_dec y (b :: w)) l).
  { apply filter_ext_in. intros y Hy.
    rewrite (JsSet_has_true y l Hy). simpl. rewrite orb_false_r.
    destruct (in_dec eq_dec y (b :: w)) as [Hi | Hi].
    - rewrite (JsSet_has_true y _ Hi). apply JsSet_has_true, JsSet_In_ofList, Hi.
    - rewrite (JsSet_has_false y _ Hi). apply JsSet_has_false.
      rewrite JsSet_In_ofList. exact Hi. }
  rewrite E.
  destruct (List.length l =? List.length (List.filter (fun y => JsSet.has A eq_dec y (b :: w)) l))%nat
    eqn:El.
  - apply Nat.eqb_eq in El. simpl.
    rewrite (filter_same_length _ l (eq_sym El)).
    now rewrite Nat.eqb_refl.
  - simpl. rewrite Nat.eqb_sym, El. reflexivity.
Qed.
End SetProperties.

(** ** The map *)

Section MapProperties.
Variables K V : Type.
Variable K_eq_dec : forall x y : K, {x = y} + {x <> y}.
Variable V_eq_dec : forall x y : V, {x = y} + {x <> y}.

Lemma JsMap_has_get (k : K) (m : list (K * V)) :
  JsMap.has K V K_eq_dec k m
  = match JsMap.get K V K_eq_dec k m with Some _ => true | None => false end.
Proof. unfold JsMap.has, JsMap.get. destruct (find _ m); reflexivity. Qed.

Lemma isKey_eq (k k' : K) (b : V) :
  JsMap.isKey K V K_eq_dec k' (k, b) = if K_eq_dec k' k then true else false.
Proof.
  unfold JsMap.isKey. simpl.
  destruct (K_eq_dec k k'), (K_eq_dec k' k); try reflexivity; congruence.
Qed.

Lemma JsMap_get_cons (k' a : K) (b : V) (m : list (K * V)) :
  JsMap.get K V K_eq_dec k' ((a, b) :: m)
  = if K_eq_dec k' a then Some b else JsMap.get K V K_eq_dec k' m.
Proof.
  unfold JsMap.get. cbn [find]. rewrite isKey_eq.
  destruct (K_eq_dec k' a); reflexivity.
Qed.

Lemma JsMap_get_set (k k' : K) (v : V) (m : list (K * V)) :
  JsMap.get K V K_eq_dec k' (JsMap.set K V K_eq_dec k v m)
  = if K_eq_dec k' k then Some v else JsMap.get K V K_eq_dec k' m.
Proof.
  induction m as [|[a b] m IH]; cbn [JsMap.set fst].
  - rewrite JsMap_get_cons. reflexivity.
  - destruct (K_eq_dec a k) as [E | Hak].
    + subst a. rewrite !JsMap_get_cons.
      destruct (K_eq_dec k' k); reflexivity.
    + rewrite !JsMap_get_cons, IH.
      destruct (K_eq_dec k' a) as [E | H]; [|reflexivity].
      subst a. destruct (K_eq_dec k' k); [congruence | reflexivity].
Qed.

Lemma JsMap_get_delete (k k' : K) (m : list (K * V)) :
  JsMap.get K V K_eq_dec k' (JsMap.delete K V K_eq_dec k m)
  = if K_eq_dec k' k then None else JsMap.get K V K_eq_dec k' m.
Proof.
  unfold JsMap.delete.
  induction m as [|[a b] m IH]; cbn [List.filter].
  - destruct (K_eq_dec k' k); reflexivity.
  - rewrite isKey_eq.
    destruct (K_eq_dec k a) as [E | Hka]; cbn [negb].
    + subst a. rewrite IH, JsMap_get_cons.
      destruct (K_eq_dec k' k); reflexivity.
    + rewrite !JsMap_get_cons, IH.
      destruct (K_eq_dec k' a) as [E | H]; [|reflexivity].
      subst a. destruct (K_eq_dec k' k); [congruence | reflexivity].
Qed.

(** X29: after [set(key, value)] the map gives [value] for [key] and
    what it gave before for every other key; the result is [false], and
    the map object is not replaced, exactly when the key already had that
    value. *)
Theorem SignalMap_set_then_get (k k' : K) (v : V) (s : SignalMap.t K V) :
  let r := SignalMap.set K V K_eq_dec V_eq_dec k v s in
  SignalMap.getNow K V K_eq_dec k' (snd r)
  = (if K_eq_dec k' k then Some v else SignalMap.getNow K V K_eq_dec k' s) /\
  fst r = match SignalMap.getNow K V K_eq_dec k s with
          | Some v' => if V_eq_dec v' v then false else true
          | None => true
          end /\
  snd r = (if fst r
           then SignalMap.mk K V (JsMap.set K V K_eq_dec k v (SignalMap.value K V s))
           else s).
Proof.
  destruct s as [m]. unfold SignalMap.set, SignalMap.getNow, SignalMap.holds.
  cbn [SignalMap.value]. rewrite JsMap_has_get.
  destruct (JsMap.get K V K_eq_dec k m) as [v'|] eqn:Hg; cbn [andb].
  - destruct (V_eq_dec v' v) as [E | Hv]; cbn [fst snd SignalMap.value].
    + subst v'. repeat split.
      destruct (K_eq_dec k' k) as [E | H]; [subst k'; exact Hg | reflexivity].
    + repeat split. apply JsMap_get_set.
  - cbn [fst snd SignalMap.value]. repeat split. apply JsMap_get_set.
Qed.

(** X30: [add(key, value)] never replaces the value of a key that is
    present, and [delete(key)] removes the key and no other; both tell
    whether the map changed. *)
Theorem SignalMap_add_and_delete (k k' : K) (v : V) (s : SignalMap.t K V) :
  let a := SignalMap.add K V K_eq_dec k v s in
  let d := SignalMap.delete K V K_eq_dec k s in
  fst a = negb (SignalMap.hasNow K V K_eq_dec k s) /\
  SignalMap.getNow K V K_eq_dec k' (snd a)
  = (if K_eq_dec k' k
     then match SignalMap.getNow K V K_eq_dec k s with
          | Some v' => Some v'
          | None => Some v
          end
     else SignalMap.getNow K V K_eq_dec k' s) /\
  fst d = SignalMap.hasNow K V K_eq_dec k s /\
  SignalMap.getNow K V K_eq_dec k' (snd d)
  = (if K_eq_dec k' k then None else SignalMap.getNow K V K_eq_dec k' s).
Proof.
  destruct s as [m]. unfold SignalMap.add, SignalMap.delete, SignalMap.getNow,
    SignalMap.hasNow. cbn [SignalMap.value]. rewrite JsMap_has_get.
  destruct (JsMap.get K V K_eq_dec k m) as [v'|] eqn:Hg;
    cbn [negb fst snd SignalMap.value]; repeat split;
    try apply JsMap_get_set; try apply JsMap_get_delete.
  - destruct (K_eq_dec k' k) as [E | H]; [subst k'; exact Hg | reflexivity].
  - destruct (K_eq_dec k' k) as [E | H]; [subst k'; exact Hg | reflexivity].
Qed.
End MapProperties.
